(** * tracecatcher: event-to-row mapping and bulk-insert SQL generation

    A shallow embedding of [db.go]: the two SQL builders
    ([buildBulkInsert], [buildBulkInsertParentChild]), the eleven
    [BatchInsert] row mappers of the [eventDefs] registry and
    [ensureDatabaseSchema], followed by the properties proved about them. *)

From Stdlib Require Import ZArith List String Ascii Bool Lia Permutation.
From Stdlib Require Import DecimalString DecimalZ DecimalPos.
Import ListNotations.

Local Open Scope list_scope.
Local Open Scope string_scope.

(** * Part I: the program *)

(** ** Go's [int]

    On the 64-bit targets the program is built for, [int] is a 64-bit two's
    complement integer.  It is a [Z] inside [[min_int, max_int]]; the
    increment [i++] wraps around. *)

Module GoInt.

Definition max_int : Z := 9223372036854775807.
Definition min_int : Z := -9223372036854775808.

Definition wrap (z : Z) : Z :=
  ((z + 9223372036854775808) mod 18446744073709551616 - 9223372036854775808)%Z.

(** [i++] *)
Definition incr (i : Z) : Z := wrap (i + 1).

End GoInt.

(** ** [strconv.Itoa], [strings.Join] and [strings.Builder] *)

Module strconv.

(** [strconv.Itoa]: the decimal digits of [i], most significant first, with
    a leading minus sign for a negative number and ["0"] for zero. *)
Definition Itoa (i : Z) : string := NilZero.string_of_int (Z.to_int i).

End strconv.

Module strings.

(** [strings.Join(elems, sep)] *)
Fixpoint Join (elems : list string) (sep : string) : string :=
  match elems with
  | [] => ""
  | [e] => e
  | e :: rest => e ++ sep ++ Join rest sep
  end.

(** [strings.Builder]: the bytes written so far.  [WriteString] appends. *)
Definition Builder := string.
Definition WriteString (b : Builder) (s : string) : Builder := b ++ s.

End strings.

(** ** The bulk-insert builders ([db.go], lines 803-887)

    Each [for] loop counts [c] or [r] upwards from its start value to a bound
    that is an [int], so the counter itself cannot overflow; the loop is a
    fold over the counter's successive values.  The builder and the
    placeholder counter [idx] are the loop state. *)

Definition BuildState : Type := strings.Builder * Z.

(** Body of the column loop of [buildBulkInsert], which is also the loop of
    the parent tuple in [buildBulkInsertParentChild]:
    [if c > 0 { b.WriteString(", ") }; idx++; b.WriteString("$"); b.WriteString(strconv.Itoa(idx))] *)
Definition flat_column (st : BuildState) (c : nat) : BuildState :=
  let '(b, idx) := st in
  let b := if (0 <? c)%nat then strings.WriteString b ", " else b in
  let idx := GoInt.incr idx in
  let b := strings.WriteString b "$" in
  let b := strings.WriteString b (strconv.Itoa idx) in
  (b, idx).

(** [for c := 0; c < len(columns); c++ { ... }] *)
Definition flat_columns (ncols : nat) (st : BuildState) : BuildState :=
  fold_left flat_column (seq 0 ncols) st.

(** Body of the row loop of [buildBulkInsert]. *)
Definition flat_row (ncols : nat) (st : BuildState) (r : nat) : BuildState :=
  let '(b, idx) := st in
  let b := if (0 <? r)%nat then strings.WriteString b "," else b in
  let b := strings.WriteString b "(" in
  let '(b, idx) := flat_columns ncols (b, idx) in
  let b := strings.WriteString b ")" in
  (b, idx).

(** [for r := 0; r < rowCount; r++ { ... }]: no iteration when [rowCount <= 0]. *)
Definition flat_rows (ncols : nat) (rowCount : Z) (st : BuildState) : BuildState :=
  fold_left (flat_row ncols) (seq 0 (Z.to_nat rowCount)) st.

Definition buildBulkInsert (table : string) (columns : list string) (rowCount : Z) : string :=
  let b : strings.Builder := "" in
  let b := strings.WriteString b ("INSERT INTO " ++ table ++ "(" ++ strings.Join columns ", " ++ ") VALUES ") in
  let idx := 0%Z in
  let '(b, _) := flat_rows (List.length columns) rowCount (b, idx) in
  b.

(** Body of the inner loop over the child columns:
    [idx++; b.WriteString(","); b.WriteString("$"); b.WriteString(strconv.Itoa(idx))] *)
Definition child_column (st : BuildState) (c : nat) : BuildState :=
  let '(b, idx) := st in
  let idx := GoInt.incr idx in
  let b := strings.WriteString b "," in
  let b := strings.WriteString b "$" in
  let b := strings.WriteString b (strconv.Itoa idx) in
  (b, idx).

(** [for c := 1; c < len(childColumns); c++ { ... }] *)
Definition child_columns (nchildcols : nat) (st : BuildState) : BuildState :=
  fold_left child_column (seq 1 (nchildcols - 1)) st.

(** Body of the loop over the child rows. *)
Definition child_row (parentTable : string) (nchildcols : nat) (st : BuildState) (r : nat) : BuildState :=
  let '(b, idx) := st in
  let b := if (0 <? r)%nat then strings.WriteString b "," else b in
  let b := strings.WriteString b "(" in
  let b := strings.WriteString b "(select id from new_" in
  let b := strings.WriteString b parentTable in
  let b := strings.WriteString b ")" in
  let '(b, idx) := child_columns nchildcols (b, idx) in
  let b := strings.WriteString b ")" in
  (b, idx).

(** [for r := 0; r < childRowCount; r++ { ... }] *)
Definition child_rows (parentTable : string) (nchildcols : nat) (childRowCount : Z)
    (st : BuildState) : BuildState :=
  fold_left (child_row parentTable nchildcols) (seq 0 (Z.to_nat childRowCount)) st.

Definition buildBulkInsertParentChild (parentTable : string) (parentColumns : list string)
    (childTable : string) (childColumns : list string) (childRowCount : Z) : string :=
  if (childRowCount =? 0)%Z then buildBulkInsert parentTable parentColumns 1
  else
    let b : strings.Builder := "" in
    let b := strings.WriteString b "WITH new_" in
    let b := strings.WriteString b parentTable in
    let b := strings.WriteString b " AS (" in
    let b := strings.WriteString b ("INSERT INTO " ++ parentTable ++ "(" ++ strings.Join parentColumns ", " ++ ") VALUES ") in
    let idx := 0%Z in
    let b := strings.WriteString b "(" in
    let '(b, idx) := flat_columns (List.length parentColumns) (b, idx) in
    let b := strings.WriteString b ") RETURNING id) " in
    let b := strings.WriteString b ("INSERT INTO " ++ childTable ++ "(" ++ strings.Join childColumns ", " ++ ") VALUES ") in
    let '(b, _) := child_rows parentTable (List.length childColumns) childRowCount (b, idx) in
    b.

(** [derefString] ([db.go], lines 796-801): a [*string] is an [option string]. *)
Definition derefString (s : option string) (def : string) : string :=
  match s with
  | None => def
  | Some v => v
  end.

(** ** Values, errors and the collaborators outside the repository *)

(** Go's [error] values: a plain message, or a message wrapping a cause as
    [fmt.Errorf("...: %w", err)] builds it. *)
Inductive error : Type :=
| errorString (msg : string)
| wrapError (msg : string) (cause : error).

(** [err.Error()] *)
Definition Error (e : error) : string :=
  match e with
  | errorString msg => msg
  | wrapError msg _ => msg
  end.

(** [errors.Unwrap(err)] *)
Definition Unwrap (e : error) : option error :=
  match e with
  | errorString _ => None
  | wrapError _ cause => Some cause
  end.

(** [fmt.Errorf(prefix + ": %w", err)] *)
Definition Errorf_w (prefix : string) (err : error) : error :=
  wrapError (prefix ++ ": " ++ Error err) err.

(** [time.Time], as the Unix seconds and the nanoseconds within the second. *)
Record Time : Type := mkTime { unix_sec : Z; unix_nsec : Z }.

(** [time.Unix(sec, nsec)].  Go divides with truncation ([Z.quot]) and then
    repairs a negative remainder.  Every call in [db.go] passes [sec = 0] and
    an [int64] for [nsec], for which no intermediate result leaves the
    [int64] range. *)
Definition time_Unix (sec nsec : Z) : Time :=
  if ((nsec <? 0) || (nsec >=? 1000000000))%Z then
    let n := (nsec ÷ 1000000000)%Z in
    let sec := (sec + n)%Z in
    let nsec := (nsec - n * 1000000000)%Z in
    if (nsec <? 0)%Z then mkTime (sec - 1) (nsec + 1000000000)
    else mkTime sec nsec
  else mkTime sec nsec.

(** A [float64] is carried as its IEEE-754 bit pattern: the mappers copy
    these values into the argument list and never compute with them. *)
Definition float64 : Type := Z.

(** The dynamic values ([any]) the mappers hand to [pgx.Batch.Queue]. *)
Inductive value : Type :=
| VString (s : string)
| VTime (t : Time)
| VFloat64 (f : float64)
| VDuration (d : Z).

(** Modelled from the spec: [EventType], the enumerated tag of an event; its
    declaration is not in [db.go].  The constants are the keys of [eventDefs]. *)
Inductive EventType : Type :=
| EventTypePublishMessage
| EventTypeRejectMessage
| EventTypeDuplicateMessage
| EventTypeDeliverMessage
| EventTypeAddPeer
| EventTypeRemovePeer
| EventTypeJoin
| EventTypeLeave
| EventTypeGraft
| EventTypePrune
| EventTypePeerScore.

(** What [db.go] imports from outside the repository (go-libp2p's [peer]
    package, [encoding/base64]) and the [Key] method of [EventType], whose
    declaration is not in [db.go].  A function that returns [(T, error)] in Go
    returns a pair whose second component is [None] for a [nil] error. *)
Class Libs : Type := {
  (** [peer.ID] *)
  peer_ID : Type;
  (** [peer.IDFromBytes] *)
  IDFromBytes : list Byte.byte -> peer_ID * option error;
  (** [peer.ID.String] *)
  IDString : peer_ID -> string;
  (** [base64.StdEncoding.DecodeString] *)
  DecodeString : string -> list Byte.byte * option error;
  (** [EventType.Key] *)
  Key : EventType -> string
}.

(** ** Trace events

    The declarations of [EventType], [TraceEvent] and its sub-payloads are
    in a file of the repository other than [db.go]. *)

(** Modelled from the spec: the sub-payloads of section 3 of the specification,
    whose declarations are not in [db.go].  The fields are the ones the mappers
    read, named as [db.go] names them, with the types those uses require; a
    [nil]-able pointer is an option. *)
Record TraceEventPublishMessage : Type := {
  PublishMessage_MessageID : list Byte.byte;
  PublishMessage_Topic : option string
}.

Record TraceEventRejectMessage : Type := {
  RejectMessage_MessageID : list Byte.byte;
  RejectMessage_ReceivedFrom : list Byte.byte;
  RejectMessage_Reason : option string;
  RejectMessage_Topic : option string
}.

Record TraceEventDuplicateMessage : Type := {
  DuplicateMessage_MessageID : list Byte.byte;
  DuplicateMessage_ReceivedFrom : list Byte.byte;
  DuplicateMessage_Topic : option string
}.

Record TraceEventDeliverMessage : Type := {
  DeliverMessage_MessageID : list Byte.byte;
  DeliverMessage_ReceivedFrom : list Byte.byte;
  DeliverMessage_Topic : option string
}.

Record TraceEventAddPeer : Type := {
  AddPeer_PeerID : list Byte.byte;
  AddPeer_Proto : option string
}.

Record TraceEventRemovePeer : Type := {
  RemovePeer_PeerID : list Byte.byte
}.

Record TraceEventJoin : Type := {
  Join_Topic : option string
}.

Record TraceEventLeave : Type := {
  Leave_Topic : option string
}.

Record TraceEventGraft : Type := {
  Graft_PeerID : list Byte.byte;
  Graft_Topic : option string
}.

Record TraceEventPrune : Type := {
  Prune_PeerID : list Byte.byte;
  Prune_Topic : option string
}.

Record TopicScore : Type := {
  TopicScore_Topic : string;
  TopicScore_TimeInMesh : Z;
  TopicScore_FirstMessageDeliveries : float64;
  TopicScore_MeshMessageDeliveries : float64;
  TopicScore_InvalidMessageDeliveries : float64
}.

Record TraceEventPeerScore : Type := {
  PeerScore_PeerID : list Byte.byte;
  PeerScore_AppSpecificScore : float64;
  PeerScore_IPColocationFactor : float64;
  PeerScore_BehaviourPenalty : float64;
  PeerScore_Topics : list TopicScore
}.

(** Modelled from the spec: the envelope of section 3 of the specification,
    whose declaration is not in [db.go]: the declared type, the raw peer
    identifier, the optional timestamp in nanoseconds since the epoch, and one
    optional sub-payload per event type. *)
Record TraceEvent : Type := {
  Type_ : EventType;
  PeerID : list Byte.byte;
  Timestamp : option Z;
  PublishMessage : option TraceEventPublishMessage;
  RejectMessage : option TraceEventRejectMessage;
  DuplicateMessage : option TraceEventDuplicateMessage;
  DeliverMessage : option TraceEventDeliverMessage;
  AddPeer : option TraceEventAddPeer;
  RemovePeer : option TraceEventRemovePeer;
  Join : option TraceEventJoin;
  Leave : option TraceEventLeave;
  Graft : option TraceEventGraft;
  Prune : option TraceEventPrune;
  PeerScore : option TraceEventPeerScore
}.

(** ** [pgx.Batch] *)

(** One queued statement: the SQL text and its arguments. *)
Record QueuedQuery : Type := { SQL : string; Arguments : list value }.

Definition Batch : Type := list QueuedQuery.

(** [b.Queue(sql, values...)] *)
Definition Queue (b : Batch) (sql : string) (values : list value) : Batch :=
  (b ++ [{| SQL := sql; Arguments := values |}])%list.

(** [BatchInsertFunc]: from a context and a slice of events to a batch and an error.
    The context is only passed along, and the events are non-nil pointers
    that the functions only read. *)
Definition BatchInsertFunc : Type := list TraceEvent -> Batch * option error.

Record EventDef : Type := {
  Name : string;
  DDL : string;
  BatchInsert : option BatchInsertFunc
}.

(** ** The row mappers ([db.go], lines 82-794)

    The ten flat [BatchInsert] closures share one skeleton and differ in the
    table, the column list and the loop body.  [flat_BatchInsert] is the
    skeleton; a closure's loop body is a function from the event to [None]
    where the body ends in [continue], and to the values it appends
    otherwise.  The [slog] calls are diagnostics only and are left out. *)

Section Mappers.

Context `{L : Libs}.

(** One turn of [for _, ev := range evs { ... }] in a flat mapper: either the
    body ends in [continue], or [rowCount++] and the row is appended to
    [values]. *)
Definition flat_step (body : TraceEvent -> option (list value))
    (st : list value * Z) (ev : TraceEvent) : list value * Z :=
  let '(values, rowCount) := st in
  match body ev with
  | None => (values, rowCount)
  | Some row => ((values ++ row)%list, GoInt.incr rowCount)
  end.

(** [values := make([]any, 0, len(evs)*len(cols)); rowCount := 0; for _, ev := range evs { ... }].
    The capacity given to [make] does not change what [append] builds. *)
Definition flat_loop (body : TraceEvent -> option (list value)) (evs : list TraceEvent)
    : list value * Z :=
  fold_left (flat_step body) evs ([], 0%Z).

(** [b := new(pgx.Batch); ...; sql := buildBulkInsert(table, cols, rowCount); b.Queue(sql, values...); return b, nil] *)
Definition flat_BatchInsert (table : string) (cols : list string)
    (body : TraceEvent -> option (list value)) : BatchInsertFunc :=
  fun evs =>
    let b : Batch := [] in
    let '(values, rowCount) := flat_loop body evs in
    let sql := buildBulkInsert table cols rowCount in
    let b := Queue b sql values in
    (b, None).

Definition publish_message_cols : list string :=
  ["peer_id"; "timestamp"; "message_id"; "topic"].

Definition publish_message_body (ev : TraceEvent) : option (list value) :=
  match Timestamp ev with
  | None => None
  | Some ts =>
    match PublishMessage ev with
    | None => None
    | Some sub =>
      match IDFromBytes (PeerID ev) with
      | (_, Some _) => None
      | (peerID, None) =>
        Some [ VString (IDString peerID);
               VTime (time_Unix 0 ts);
               VString (string_of_list_byte (PublishMessage_MessageID sub));
               VString (derefString (PublishMessage_Topic sub) "") ]
      end
    end
  end.

Definition publish_message_BatchInsert : BatchInsertFunc :=
  flat_BatchInsert "publish_message_event" publish_message_cols publish_message_body.

Definition reject_message_cols : list string :=
  ["peer_id"; "timestamp"; "message_id"; "topic"; "received_from"; "reason"].

Definition reject_message_body (ev : TraceEvent) : option (list value) :=
  match Timestamp ev with
  | None => None
  | Some ts =>
    match RejectMessage ev with
    | None => None
    | Some sub =>
      match IDFromBytes (PeerID ev) with
      | (_, Some _) => None
      | (peerID, None) =>
        match IDFromBytes (RejectMessage_ReceivedFrom sub) with
        | (_, Some _) => None
        | (receivedFromPeerID, None) =>
          Some [ VString (IDString peerID);
                 VTime (time_Unix 0 ts);
                 VString (string_of_list_byte (RejectMessage_MessageID sub));
                 VString (derefString (RejectMessage_Topic sub) "");
                 VString (IDString receivedFromPeerID);
                 VString (derefString (RejectMessage_Reason sub) "") ]
        end
      end
    end
  end.

Definition reject_message_BatchInsert : BatchInsertFunc :=
  flat_BatchInsert "reject_message_event" reject_message_cols reject_message_body.

Definition duplicate_message_cols : list string :=
  ["peer_id"; "timestamp"; "message_id"; "topic"; "received_from"].

Definition duplicate_message_body (ev : TraceEvent) : option (list value) :=
  match Timestamp ev with
  | None => None
  | Some ts =>
    match DuplicateMessage ev with
    | None => None
    | Some sub =>
      match IDFromBytes (PeerID ev) with
      | (_, Some _) => None
      | (peerID, None) =>
        match IDFromBytes (DuplicateMessage_ReceivedFrom sub) with
        | (_, Some _) => None
        | (receivedFromPeerID, None) =>
          Some [ VString (IDString peerID);
                 VTime (time_Unix 0 ts);
                 VString (string_of_list_byte (DuplicateMessage_MessageID sub));
                 VString (derefString (DuplicateMessage_Topic sub) "");
                 VString (IDString receivedFromPeerID) ]
        end
      end
    end
  end.

Definition duplicate_message_BatchInsert : BatchInsertFunc :=
  flat_BatchInsert "duplicate_message_event" duplicate_message_cols duplicate_message_body.

Definition deliver_message_cols : list string :=
  ["peer_id"; "timestamp"; "message_id"; "topic"; "received_from"].

Definition deliver_message_body (ev : TraceEvent) : option (list value) :=
  match Timestamp ev with
  | None => None
  | Some ts =>
    match DeliverMessage ev with
    | None => None
    | Some sub =>
      match IDFromBytes (PeerID ev) with
      | (_, Some _) => None
      | (peerID, None) =>
        match IDFromBytes (DeliverMessage_ReceivedFrom sub) with
        | (_, Some _) => None
        | (receivedFromPeerID, None) =>
          Some [ VString (IDString peerID);
                 VTime (time_Unix 0 ts);
                 VString (string_of_list_byte (DeliverMessage_MessageID sub));
                 VString (derefString (DeliverMessage_Topic sub) "");
                 VString (IDString receivedFromPeerID) ]
        end
      end
    end
  end.

Definition deliver_message_BatchInsert : BatchInsertFunc :=
  flat_BatchInsert "deliver_message_event" deliver_message_cols deliver_message_body.

Definition add_peer_cols : list string :=
  ["peer_id"; "timestamp"; "other_peer_id"; "proto"].

Definition add_peer_body (ev : TraceEvent) : option (list value) :=
  match Timestamp ev with
  | None => None
  | Some ts =>
    match AddPeer ev with
    | None => None
    | Some sub =>
      match IDFromBytes (PeerID ev) with
      | (_, Some _) => None
      | (peerID, None) =>
        match IDFromBytes (AddPeer_PeerID sub) with
        | (_, Some _) => None
        | (otherPeerID, None) =>
          Some [ VString (IDString peerID);
                 VTime (time_Unix 0 ts);
                 VString (IDString otherPeerID);
                 VString (derefString (AddPeer_Proto sub) "") ]
        end
      end
    end
  end.

Definition add_peer_BatchInsert : BatchInsertFunc :=
  flat_BatchInsert "add_peer_event" add_peer_cols add_peer_body.

Definition remove_peer_cols : list string :=
  ["peer_id"; "timestamp"; "other_peer_id"].

Definition remove_peer_body (ev : TraceEvent) : option (list value) :=
  match Timestamp ev with
  | None => None
  | Some ts =>
    match RemovePeer ev with
    | None => None
    | Some sub =>
      match IDFromBytes (PeerID ev) with
      | (_, Some _) => None
      | (peerID, None) =>
        match IDFromBytes (RemovePeer_PeerID sub) with
        | (_, Some _) => None
        | (otherPeerID, None) =>
          Some [ VString (IDString peerID);
                 VTime (time_Unix 0 ts);
                 VString (IDString otherPeerID) ]
        end
      end
    end
  end.

Definition remove_peer_BatchInsert : BatchInsertFunc :=
  flat_BatchInsert "remove_peer_event" remove_peer_cols remove_peer_body.

Definition join_cols : list string := ["peer_id"; "timestamp"; "topic"].

Definition join_body (ev : TraceEvent) : option (list value) :=
  match Timestamp ev with
  | None => None
  | Some ts =>
    match Join ev with
    | None => None
    | Some sub =>
      match IDFromBytes (PeerID ev) with
      | (_, Some _) => None
      | (peerID, None) =>
        Some [ VString (IDString peerID);
               VTime (time_Unix 0 ts);
               VString (derefString (Join_Topic sub) "") ]
      end
    end
  end.

Definition join_BatchInsert : BatchInsertFunc :=
  flat_BatchInsert "join_event" join_cols join_body.

Definition leave_cols : list string := ["peer_id"; "timestamp"; "topic"].

Definition leave_body (ev : TraceEvent) : option (list value) :=
  match Timestamp ev with
  | None => None
  | Some ts =>
    match Leave ev with
    | None => None
    | Some sub =>
      match IDFromBytes (PeerID ev) with
      | (_, Some _) => None
      | (peerID, None) =>
        Some [ VString (IDString peerID);
               VTime (time_Unix 0 ts);
               VString (derefString (Leave_Topic sub) "") ]
      end
    end
  end.

Definition leave_BatchInsert : BatchInsertFunc :=
  flat_BatchInsert "leave_event" leave_cols leave_body.

Definition graft_cols : list string :=
  ["peer_id"; "timestamp"; "topic"; "other_peer_id"].

Definition graft_body (ev : TraceEvent) : option (list value) :=
  match Timestamp ev with
  | None => None
  | Some ts =>
    match Graft ev with
    | None => None
    | Some sub =>
      match IDFromBytes (PeerID ev) with
      | (_, Some _) => None
      | (peerID, None) =>
        match IDFromBytes (Graft_PeerID sub) with
        | (_, Some _) => None
        | (otherPeerID, None) =>
          Some [ VString (IDString peerID);
                 VTime (time_Unix 0 ts);
                 VString (derefString (Graft_Topic sub) "");
                 VString (IDString otherPeerID) ]
        end
      end
    end
  end.

Definition graft_BatchInsert : BatchInsertFunc :=
  flat_BatchInsert "graft_event" graft_cols graft_body.

Definition prune_cols : list string :=
  ["peer_id"; "timestamp"; "topic"; "other_peer_id"].

Definition prune_body (ev : TraceEvent) : option (list value) :=
  match Timestamp ev with
  | None => None
  | Some ts =>
    match Prune ev with
    | None => None
    | Some sub =>
      match IDFromBytes (PeerID ev) with
      | (_, Some _) => None
      | (peerID, None) =>
        match IDFromBytes (Prune_PeerID sub) with
        | (_, Some _) => None
        | (otherPeerID, None) =>
          Some [ VString (IDString peerID);
                 VTime (time_Unix 0 ts);
                 VString (derefString (Prune_Topic sub) "");
                 VString (IDString otherPeerID) ]
        end
      end
    end
  end.

Definition prune_BatchInsert : BatchInsertFunc :=
  flat_BatchInsert "prune_event" prune_cols prune_body.

(** *** PeerScore, the parent-child mapper (lines 711-792) *)

Definition peer_score_parentCols : list string :=
  ["peer_id"; "timestamp"; "other_peer_id"; "app_specific_score";
   "ip_colocation_factor"; "behaviour_penalty"].

Definition peer_score_childCols : list string :=
  ["peer_score_event_id"; "topic"; "time_in_mesh"; "first_message_deliveries";
   "mesh_message_deliveries"; "invalid_message_deliveries"].

(** The body of both [if err != nil { ... }] blocks (lines 734-744 and
    749-759), which differ only in the bytes they read:
    [decoded, err := base64.StdEncoding.DecodeString(string(raw)); if err != nil { continue };
     peerID, err = peer.IDFromBytes(decoded); if err != nil { continue }].
    [None] is [continue]; [Some id] is the value the block assigns to the
    variable [peerID]. *)
Definition guess_encoding (raw : list Byte.byte) : option peer_ID :=
  match DecodeString (string_of_list_byte raw) with
  | (_, Some _) => None
  | (decoded, None) =>
    match IDFromBytes decoded with
    | (_, Some _) => None
    | (peerID, None) => Some peerID
    end
  end.

(** One turn of [for _, t := range sub.Topics { childRowCount++; values = append(values, t.Topic, ...) }] *)
Definition peer_score_child (st : list value * Z) (t : TopicScore) : list value * Z :=
  let '(values, childRowCount) := st in
  let childRowCount := GoInt.incr childRowCount in
  ((values ++ [ VString (TopicScore_Topic t);
                VDuration (TopicScore_TimeInMesh t);
                VFloat64 (TopicScore_FirstMessageDeliveries t);
                VFloat64 (TopicScore_MeshMessageDeliveries t);
                VFloat64 (TopicScore_InvalidMessageDeliveries t) ])%list,
   childRowCount).

Definition peer_score_children (topics : list TopicScore) (values : list value)
    : list value * Z :=
  fold_left peer_score_child topics (values, 0%Z).

(** The loop body.  The state is the batch and [eventCount]. *)
Definition peer_score_step (st : Batch * Z) (ev : TraceEvent) : Batch * Z :=
  let '(b, eventCount) := st in
  match Timestamp ev with
  | None => st
  | Some ts =>
    match PeerScore ev with
    | None => st
    | Some sub =>
      (* peerID, err := peer.IDFromBytes(ev.PeerID); if err != nil { ... } *)
      let '(peerID, err) := IDFromBytes (PeerID ev) in
      match (match err with
             | None => Some peerID
             | Some _ => guess_encoding (PeerID ev)
             end) with
      | None => st
      | Some peerID =>
        (* otherPeerID, err := peer.IDFromBytes(sub.PeerID); if err != nil { ... };
           line 755 assigns the decoded identifier to peerID *)
        let '(otherPeerID, err) := IDFromBytes (PeerScore_PeerID sub) in
        match (match err with
               | None => Some peerID
               | Some _ => guess_encoding (PeerScore_PeerID sub)
               end) with
        | None => st
        | Some peerID =>
          let values : list value :=
            [ VString (IDString peerID);
              VTime (time_Unix 0 ts);
              VString (IDString otherPeerID);
              VFloat64 (PeerScore_AppSpecificScore sub);
              VFloat64 (PeerScore_IPColocationFactor sub);
              VFloat64 (PeerScore_BehaviourPenalty sub) ] in
          let '(values, childRowCount) := peer_score_children (PeerScore_Topics sub) values in
          let sql :=
            buildBulkInsertParentChild "peer_score_event" peer_score_parentCols
                                       "peer_score_topic" peer_score_childCols childRowCount in
          let b := Queue b sql values in
          (b, GoInt.incr eventCount)
        end
      end
    end
  end.

Definition peer_score_BatchInsert : BatchInsertFunc :=
  fun evs =>
    let b : Batch := [] in
    let '(b, _) := fold_left peer_score_step evs (b, 0%Z) in
    (b, None).

(** *** The registry ([db.go], lines 82-794)

    The DDL texts are the raw string literals of [db.go], byte for byte. *)

Definition publish_message_event_DDL : string := "
			CREATE TABLE IF NOT EXISTS publish_message_event (
			    id               INT         GENERATED ALWAYS AS IDENTITY,
				peer_id          TEXT        NOT NULL,
				timestamp        TIMESTAMPTZ NOT NULL,
				message_id       TEXT        NOT NULL,
				topic            TEXT        NOT NULL,
			    PRIMARY KEY (id)
			);

			CREATE INDEX IF NOT EXISTS idx_publish_message_event_timestamp ON publish_message_event (timestamp);
			CREATE INDEX IF NOT EXISTS idx_publish_message_event_peer_id   ON publish_message_event (peer_id);
			CREATE INDEX IF NOT EXISTS idx_publish_message_event_topic     ON publish_message_event USING hash (topic);
		".

Definition reject_message_event_DDL : string := "
			CREATE TABLE IF NOT EXISTS reject_message_event (
			    id               INT         GENERATED ALWAYS AS IDENTITY,
				peer_id          TEXT        NOT NULL,
				timestamp        TIMESTAMPTZ NOT NULL,
				message_id       TEXT        NOT NULL,
				topic            TEXT        NOT NULL,
				received_from    TEXT        NOT NULL,
				reason           TEXT        NOT NULL,
			    PRIMARY KEY (id)
			);

			CREATE INDEX IF NOT EXISTS idx_reject_message_event_timestamp       ON reject_message_event (timestamp);
			CREATE INDEX IF NOT EXISTS idx_reject_message_event_peer_id         ON reject_message_event (peer_id);
			CREATE INDEX IF NOT EXISTS idx_reject_message_event_topic           ON reject_message_event USING hash (topic);
			CREATE INDEX IF NOT EXISTS idx_reject_message_event_received_from   ON reject_message_event (received_from);
		".

Definition duplicate_message_event_DDL : string := "
			CREATE TABLE IF NOT EXISTS duplicate_message_event (
			    id               INT         GENERATED ALWAYS AS IDENTITY,
				peer_id          TEXT        NOT NULL,
				timestamp        TIMESTAMPTZ NOT NULL,
				message_id       TEXT        NOT NULL,
				topic            TEXT        NOT NULL,
				received_from    TEXT        NOT NULL,
			    PRIMARY KEY (id)
			);

			CREATE INDEX IF NOT EXISTS idx_duplicate_message_event_timestamp       ON duplicate_message_event (timestamp);
			CREATE INDEX IF NOT EXISTS idx_duplicate_message_event_peer_id         ON duplicate_message_event (peer_id);
			CREATE INDEX IF NOT EXISTS idx_duplicate_message_event_topic           ON duplicate_message_event USING hash (topic);
			CREATE INDEX IF NOT EXISTS idx_duplicate_message_event_received_from   ON duplicate_message_event (received_from);
		".

Definition deliver_message_event_DDL : string := "
			CREATE TABLE IF NOT EXISTS deliver_message_event (
			    id               INT         GENERATED ALWAYS AS IDENTITY,
				peer_id          TEXT        NOT NULL,
				timestamp        TIMESTAMPTZ NOT NULL,
				message_id       TEXT        NOT NULL,
				topic            TEXT        NOT NULL,
				received_from    TEXT        NOT NULL,
			    PRIMARY KEY (id)
			);

			CREATE INDEX IF NOT EXISTS idx_deliver_message_event_timestamp       ON deliver_message_event (timestamp);
			CREATE INDEX IF NOT EXISTS idx_deliver_message_event_peer_id         ON deliver_message_event (peer_id);
			CREATE INDEX IF NOT EXISTS idx_deliver_message_event_topic           ON deliver_message_event USING hash (topic);
			CREATE INDEX IF NOT EXISTS idx_deliver_message_event_received_from   ON deliver_message_event (received_from);
		".

Definition add_peer_event_DDL : string := "
			CREATE TABLE IF NOT EXISTS add_peer_event (
			    id               INT         GENERATED ALWAYS AS IDENTITY,
				peer_id          TEXT        NOT NULL,
				timestamp        TIMESTAMPTZ NOT NULL,
				other_peer_id    TEXT        NOT NULL,
				proto            TEXT        NOT NULL,
			    PRIMARY KEY (id)
			);

			CREATE INDEX IF NOT EXISTS idx_add_peer_event_timestamp       ON add_peer_event (timestamp);
			CREATE INDEX IF NOT EXISTS idx_add_peer_event_peer_id         ON add_peer_event (peer_id);
			CREATE INDEX IF NOT EXISTS idx_add_peer_event_other_peer_id   ON add_peer_event (other_peer_id);
		".

Definition remove_peer_event_DDL : string := "
			CREATE TABLE IF NOT EXISTS remove_peer_event (
			    id               INT         GENERATED ALWAYS AS IDENTITY,
				peer_id          TEXT        NOT NULL,
				timestamp        TIMESTAMPTZ NOT NULL,
				other_peer_id    TEXT        NOT NULL,
			    PRIMARY KEY (id)
			);

			CREATE INDEX IF NOT EXISTS idx_remove_peer_event_timestamp       ON remove_peer_event (timestamp);
			CREATE INDEX IF NOT EXISTS idx_remove_peer_event_peer_id         ON remove_peer_event (peer_id);
			CREATE INDEX IF NOT EXISTS idx_remove_peer_event_other_peer_id   ON remove_peer_event (other_peer_id);
		".

Definition join_event_DDL : string := "
			CREATE TABLE IF NOT EXISTS join_event (
			    id               INT         GENERATED ALWAYS AS IDENTITY,
				peer_id          TEXT        NOT NULL,
				timestamp        TIMESTAMPTZ NOT NULL,
				topic            TEXT        NOT NULL,
			    PRIMARY KEY (id)
			);

			CREATE INDEX IF NOT EXISTS idx_join_event_timestamp  ON join_event (timestamp);
			CREATE INDEX IF NOT EXISTS idx_join_event_peer_id    ON join_event (peer_id);
			CREATE INDEX IF NOT EXISTS idx_join_event_topic      ON join_event USING hash (topic);
		".

Definition leave_event_DDL : string := "
			CREATE TABLE IF NOT EXISTS leave_event (
			    id               INT         GENERATED ALWAYS AS IDENTITY,
				peer_id          TEXT        NOT NULL,
				timestamp        TIMESTAMPTZ NOT NULL,
				topic            TEXT        NOT NULL,
			    PRIMARY KEY (id)
			);

			CREATE INDEX IF NOT EXISTS idx_leave_event_timestamp  ON leave_event (timestamp);
			CREATE INDEX IF NOT EXISTS idx_leave_event_peer_id    ON leave_event (peer_id);
			CREATE INDEX IF NOT EXISTS idx_leave_event_topic      ON leave_event USING hash (topic);
		".

Definition graft_event_DDL : string := "
			CREATE TABLE IF NOT EXISTS graft_event (
			    id               INT         GENERATED ALWAYS AS IDENTITY,
				peer_id          TEXT        NOT NULL,
				timestamp        TIMESTAMPTZ NOT NULL,
				topic            TEXT        NOT NULL,
				other_peer_id    TEXT        NOT NULL,
			    PRIMARY KEY (id)
			);

			CREATE INDEX IF NOT EXISTS idx_graft_event_timestamp       ON graft_event (timestamp);
			CREATE INDEX IF NOT EXISTS idx_graft_event_peer_id         ON graft_event (peer_id);
			CREATE INDEX IF NOT EXISTS idx_graft_event_topic           ON graft_event USING hash (topic);
			CREATE INDEX IF NOT EXISTS idx_graft_event_other_peer_id   ON graft_event (other_peer_id);
		".

Definition prune_event_DDL : string := "
			CREATE TABLE IF NOT EXISTS prune_event (
			    id               INT         GENERATED ALWAYS AS IDENTITY,
				peer_id          TEXT        NOT NULL,
				timestamp        TIMESTAMPTZ NOT NULL,
				topic            TEXT        NOT NULL,
				other_peer_id    TEXT        NOT NULL,
			    PRIMARY KEY (id)
			);

			CREATE INDEX IF NOT EXISTS idx_prune_event_timestamp       ON prune_event (timestamp);
			CREATE INDEX IF NOT EXISTS idx_prune_event_peer_id         ON prune_event (peer_id);
			CREATE INDEX IF NOT EXISTS idx_prune_event_topic           ON prune_event USING hash (topic);
			CREATE INDEX IF NOT EXISTS idx_prune_event_other_peer_id   ON prune_event (other_peer_id);
		".

Definition peer_score_event_DDL : string := "
			CREATE TABLE IF NOT EXISTS peer_score_event (
			    id                    INT         GENERATED ALWAYS AS IDENTITY,
				peer_id               TEXT        NOT NULL,
				timestamp             TIMESTAMPTZ NOT NULL,
				other_peer_id         TEXT        NOT NULL,
				app_specific_score    FLOAT8      NOT NULL,
				ip_colocation_factor  FLOAT8      NOT NULL,
				behaviour_penalty     FLOAT8      NOT NULL,
			    PRIMARY KEY (id)
			);

			CREATE INDEX IF NOT EXISTS idx_peer_score_event_timestamp       ON peer_score_event (timestamp);
			CREATE INDEX IF NOT EXISTS idx_peer_score_event_peer_id         ON peer_score_event (peer_id);
			CREATE INDEX IF NOT EXISTS idx_peer_score_event_other_peer_id   ON peer_score_event (other_peer_id);

			CREATE TABLE IF NOT EXISTS peer_score_topic (
			    id                          INT         GENERATED ALWAYS AS IDENTITY,
			    peer_score_event_id         INT         NOT NULL,
				topic                       TEXT        NOT NULL,
				time_in_mesh                INTERVAL    NOT NULL,
				first_message_deliveries    FLOAT8      NOT NULL,
				mesh_message_deliveries     FLOAT8      NOT NULL,
				invalid_message_deliveries  FLOAT8      NOT NULL,
			    PRIMARY KEY (id)
			);

			CREATE INDEX IF NOT EXISTS idx_peer_score_topic_peer_score_event_id   ON peer_score_topic (peer_score_event_id);
			CREATE INDEX IF NOT EXISTS idx_peer_score_topic_topic                 ON peer_score_topic USING hash (topic);
		".

(** [var eventDefs = map[EventType]EventDef{ ... }], in the order of the literal.
    The keys are pairwise distinct, so the list is the map. *)
Definition eventDefs : list (EventType * EventDef) :=
  [
    (EventTypePublishMessage,
     {| Name := "publish_message_event";
        DDL := publish_message_event_DDL;
        BatchInsert := Some publish_message_BatchInsert |});
    (EventTypeRejectMessage,
     {| Name := "reject_message_event";
        DDL := reject_message_event_DDL;
        BatchInsert := Some reject_message_BatchInsert |});
    (EventTypeDuplicateMessage,
     {| Name := "duplicate_message_event";
        DDL := duplicate_message_event_DDL;
        BatchInsert := Some duplicate_message_BatchInsert |});
    (EventTypeDeliverMessage,
     {| Name := "deliver_message_event";
        DDL := deliver_message_event_DDL;
        BatchInsert := Some deliver_message_BatchInsert |});
    (EventTypeAddPeer,
     {| Name := "add_peer_event";
        DDL := add_peer_event_DDL;
        BatchInsert := Some add_peer_BatchInsert |});
    (EventTypeRemovePeer,
     {| Name := "remove_peer_event";
        DDL := remove_peer_event_DDL;
        BatchInsert := Some remove_peer_BatchInsert |});
    (EventTypeJoin,
     {| Name := "join_event";
        DDL := join_event_DDL;
        BatchInsert := Some join_BatchInsert |});
    (EventTypeLeave,
     {| Name := "leave_event";
        DDL := leave_event_DDL;
        BatchInsert := Some leave_BatchInsert |});
    (EventTypeGraft,
     {| Name := "graft_event";
        DDL := graft_event_DDL;
        BatchInsert := Some graft_BatchInsert |});
    (EventTypePrune,
     {| Name := "prune_event";
        DDL := prune_event_DDL;
        BatchInsert := Some prune_BatchInsert |});
    (EventTypePeerScore,
     {| Name := "peer_score_event";
        DDL := peer_score_event_DDL;
        BatchInsert := Some peer_score_BatchInsert |})
  ].

End Mappers.

(** ** [ensureDatabaseSchema] ([db.go], lines 41-72)

    The connection is outside the repository.  It is a state: the statements
    made durable by committed transactions, the statements executed inside
    the transaction that is open (if one is), and the calls received so far.
    Which calls fail, and with which error, is the server's choice. *)

Inductive dbcall : Type :=
| CallBegin
| CallExec (sql : string)
| CallCommit
| CallRollback.

Record Conn : Type := mkConn {
  durable : list string;
  open_tx : option (list string);
  calls : list dbcall
}.

Record Server : Type := {
  begin_error : option error;
  (** the error of executing a statement after those already executed in the transaction *)
  exec_error : list string -> string -> option error;
  commit_error : list string -> option error
}.

Definition ErrTxClosed : error := errorString "tx is closed".

(** [conn.Begin(ctx)] *)
Definition conn_Begin (srv : Server) (conn : Conn) : Conn * option error :=
  let calls := (calls conn ++ [CallBegin])%list in
  match begin_error srv with
  | Some err => (mkConn (durable conn) (open_tx conn) calls, Some err)
  | None => (mkConn (durable conn) (Some []) calls, None)
  end.

(** [tx.Exec(ctx, sql)] *)
Definition tx_Exec (srv : Server) (sql : string) (conn : Conn) : Conn * option error :=
  let calls := (calls conn ++ [CallExec sql])%list in
  match open_tx conn with
  | None => (mkConn (durable conn) None calls, Some ErrTxClosed)
  | Some done =>
    match exec_error srv done sql with
    | Some err => (mkConn (durable conn) (Some done) calls, Some err)
    | None => (mkConn (durable conn) (Some (done ++ [sql])%list) calls, None)
    end
  end.

(** [tx.Commit(ctx)]: the transaction is closed afterwards, whether the
    commit succeeded or not; only a successful commit makes its statements
    durable. *)
Definition tx_Commit (srv : Server) (conn : Conn) : Conn * option error :=
  let calls := (calls conn ++ [CallCommit])%list in
  match open_tx conn with
  | None => (mkConn (durable conn) None calls, Some ErrTxClosed)
  | Some done =>
    match commit_error srv done with
    | Some err => (mkConn (durable conn) None calls, Some err)
    | None => (mkConn (durable conn ++ done)%list None calls, None)
    end
  end.

(** [tx.Rollback(ctx)]: discards the statements of an open transaction; on
    a closed one it changes nothing and returns [ErrTxClosed]. *)
Definition tx_Rollback (conn : Conn) : Conn * option error :=
  let calls := (calls conn ++ [CallRollback])%list in
  match open_tx conn with
  | None => (mkConn (durable conn) None calls, Some ErrTxClosed)
  | Some _ => (mkConn (durable conn) None calls, None)
  end.

Section Schema.

Context `{L : Libs}.

(** [for et, tbl := range eventDefs { ... }], over the entries in the order
    the iteration visits them.  [Some err] is the [return] inside the loop. *)
Fixpoint exec_ddl_loop (srv : Server) (entries : list (EventType * EventDef)) (conn : Conn)
    : Conn * option error :=
  match entries with
  | [] => (conn, None)
  | (et, tbl) :: rest =>
    if (DDL tbl =? "")%string then exec_ddl_loop srv rest conn
    else
      match BatchInsert tbl with
      | None => exec_ddl_loop srv rest conn
      | Some _ =>
        let '(conn, err) := tx_Exec srv (DDL tbl) conn in
        match err with
        | Some err => (conn, Some (Errorf_w ("exec ddl for " ++ Key et) err))
        | None => exec_ddl_loop srv rest conn
        end
      end
  end.

(** The function from the statement after [defer tx.Rollback(ctx)] to its
    [return]s. *)
Definition ensure_after_begin (srv : Server) (entries : list (EventType * EventDef))
    (conn : Conn) : Conn * option error :=
  let '(conn, err) := exec_ddl_loop srv entries conn in
  match err with
  | Some err => (conn, Some err)
  | None =>
    let '(conn, err) := tx_Commit srv conn in
    match err with
    | Some err => (conn, Some (Errorf_w "commit transaction" err))
    | None => (conn, None)
    end
  end.

(** [entries] is the order in which [range eventDefs] visits the map, which
    Go leaves unspecified. *)
Definition ensureDatabaseSchema (srv : Server) (entries : list (EventType * EventDef))
    (conn : Conn) : Conn * option error :=
  let '(conn, err) := conn_Begin srv conn in
  match err with
  | Some err => (conn, Some (Errorf_w "begin transaction" err))
  | None =>
    let '(conn, ret) := ensure_after_begin srv entries conn in
    (* the deferred call *)
    let '(conn, _) := tx_Rollback conn in
    (conn, ret)
  end.

End Schema.

(** ** [connect] ([db.go], lines 16-39) *)

(** The connection string:
    [fmt.Sprintf("host=%s port=%d dbname=%s sslmode=%s user=%s password=%s", ...)].
    [%s] copies a string as it is and [%d] prints an [int] in decimal. *)
Definition dsn (dbHost : string) (dbPort : Z) (dbName dbSSLMode dbUser dbPassword : string)
    : string :=
  "host=" ++ dbHost ++ " port=" ++ strconv.Itoa dbPort ++ " dbname=" ++ dbName
    ++ " sslmode=" ++ dbSSLMode ++ " user=" ++ dbUser ++ " password=" ++ dbPassword.

Section Connect.

Context `{L : Libs}.

(** [pgx.Connect] is outside the repository: [dial] gives, for a connection
    string, the connection or the error.  The result of [connect] is the
    connection ([None] for [nil]) and the error. *)
Definition connect (dial : string -> Conn * option error) (srv : Server)
    (entries : list (EventType * EventDef))
    (dbHost : string) (dbPort : Z) (dbName dbSSLMode dbUser dbPassword : string)
    : option Conn * option error :=
  let dsn := dsn dbHost dbPort dbName dbSSLMode dbUser dbPassword in
  let '(conn, err) := dial dsn in
  match err with
  | Some err => (None, Some (Errorf_w "pgconn connect" err))
  | None =>
    let '(conn, err) := ensureDatabaseSchema srv entries conn in
    match err with
    | Some err => (None, Some (Errorf_w "ensure schema exists" err))
    | None => (Some conn, None)
    end
  end.

End Connect.

(** ** A concrete stand-in for the libraries

    The theorems hold for every [Libs].  Where one is applied to a concrete
    event, the libraries are these: the standard base64 alphabet with [=]
    padding, a peer identifier that is valid when its bytes are a multihash
    (a varint code, a varint length and a digest of that length), printed in
    base58. *)

Module Sample.

Definition ascii_in (lo hi c : ascii) : bool :=
  ((N_of_ascii lo <=? N_of_ascii c) && (N_of_ascii c <=? N_of_ascii hi))%N.

Definition b64_value (c : ascii) : option N :=
  if ascii_in "A" "Z" c then Some (N_of_ascii c - 65)%N
  else if ascii_in "a" "z" c then Some (N_of_ascii c - 97 + 26)%N
  else if ascii_in "0" "9" c then Some (N_of_ascii c - 48 + 52)%N
  else if (c =? "+")%char then Some 62%N
  else if (c =? "/")%char then Some 63%N
  else None.

Definition byte_of_N (n : N) : Byte.byte :=
  match Byte.of_N (n mod 256) with
  | Some b => b
  | None => Byte.x00
  end.

Definition b64_quantum (v1 v2 v3 v4 : N) : list Byte.byte :=
  let n := (v1 * 262144 + v2 * 4096 + v3 * 64 + v4)%N in
  [byte_of_N (n / 65536); byte_of_N (n / 256); byte_of_N n].

Fixpoint b64_decode (cs : list ascii) : option (list Byte.byte) :=
  match cs with
  | [] => Some []
  | c1 :: c2 :: c3 :: c4 :: rest =>
    match b64_value c1, b64_value c2 with
    | Some v1, Some v2 =>
      match b64_value c3, b64_value c4, rest with
      | Some v3, Some v4, _ =>
        match b64_decode rest with
        | Some out => Some (b64_quantum v1 v2 v3 v4 ++ out)%list
        | None => None
        end
      | Some v3, None, [] =>
        if (c4 =? "=")%char then Some (firstn 2 (b64_quantum v1 v2 v3 0)) else None
      | None, None, [] =>
        if ((c3 =? "=")%char && (c4 =? "=")%char)%bool
        then Some (firstn 1 (b64_quantum v1 v2 0 0)) else None
      | _, _, _ => None
      end
    | _, _ => None
    end
  | _ => None
  end.

Definition is_newline (c : ascii) : bool :=
  ((c =? "010")%char || (c =? "013")%char)%bool.

Definition DecodeString (s : string) : list Byte.byte * option error :=
  match b64_decode (filter (fun c => negb (is_newline c)) (list_ascii_of_string s)) with
  | Some out => (out, None)
  | None => ([], Some (errorString "illegal base64 data"))
  end.

(** An unsigned varint: seven bits per byte, least significant group first,
    the high bit set on every byte but the last. *)
Fixpoint uvarint (fuel : nat) (bs : list Byte.byte) : option (N * list Byte.byte) :=
  match fuel, bs with
  | S fuel, b :: rest =>
    let n := Byte.to_N b in
    if (n <? 128)%N then Some (n, rest)
    else
      match uvarint fuel rest with
      | Some (hi, rest) => Some ((n - 128) + 128 * hi, rest)%N
      | None => None
      end
  | _, _ => None
  end.

Definition multihash_ok (bs : list Byte.byte) : bool :=
  match uvarint 9 bs with
  | Some (_, rest) =>
    match uvarint 9 rest with
    | Some (len, digest) => (N.of_nat (List.length digest) =? len)%N
    | None => false
    end
  | None => false
  end.

Definition IDFromBytes (bs : list Byte.byte) : string * option error :=
  if multihash_ok bs then (string_of_list_byte bs, None)
  else ("", Some (errorString "multihash length inconsistent")).

Definition b58_alphabet : string :=
  "123456789ABCDEFGHJKLMNPQRSTUVWXYZabcdefghijkmnopqrstuvwxyz".

Definition b58_digit (n : N) : ascii :=
  match String.get (N.to_nat n) b58_alphabet with
  | Some c => c
  | None => "1"%char
  end.

Fixpoint b58_digits (fuel : nat) (n : N) (acc : string) : string :=
  match fuel with
  | O => acc
  | S fuel =>
    if (n =? 0)%N then acc
    else b58_digits fuel (n / 58)%N (String (b58_digit (n mod 58)%N) acc)
  end.

Fixpoint b58_zeros (bs : list Byte.byte) : string :=
  match bs with
  | Byte.x00 :: rest => String "1" (b58_zeros rest)
  | _ => ""
  end.

Definition N_of_bytes (bs : list Byte.byte) : N :=
  fold_left (fun acc b => (acc * 256 + Byte.to_N b)%N) bs 0%N.

Definition b58_encode (bs : list Byte.byte) : string :=
  b58_zeros bs ++ b58_digits (2 * List.length bs) (N_of_bytes bs) "".

Definition IDString (id : string) : string := b58_encode (list_byte_of_string id).

Definition Key (et : EventType) : string :=
  match et with
  | EventTypePublishMessage => "publish_message"
  | EventTypeRejectMessage => "reject_message"
  | EventTypeDuplicateMessage => "duplicate_message"
  | EventTypeDeliverMessage => "deliver_message"
  | EventTypeAddPeer => "add_peer"
  | EventTypeRemovePeer => "remove_peer"
  | EventTypeJoin => "join"
  | EventTypeLeave => "leave"
  | EventTypeGraft => "graft"
  | EventTypePrune => "prune"
  | EventTypePeerScore => "peer_score"
  end.

Definition libs : Libs := Build_Libs string IDFromBytes IDString DecodeString Key.

(** The identity multihash of the two bytes [ab cd]. *)
Definition id_bytes : list Byte.byte := [Byte.x00; Byte.x02; Byte.xab; Byte.xcd].

(** A second identifier, the identity multihash of [01 02 03]. *)
Definition other_bytes : list Byte.byte := [Byte.x00; Byte.x03; Byte.x01; Byte.x02; Byte.x03].

(** [other_bytes] in base64, as bytes: what a producer sends that puts the
    text form of an identifier where its bytes belong. *)
Definition other_base64 : list Byte.byte := list_byte_of_string "AAMBAgM=".

(** [id_bytes] in base64, as bytes. *)
Definition id_base64 : list Byte.byte := list_byte_of_string "AAKrzQ==".

Definition no_payload (ty : EventType) (peer : list Byte.byte) (ts : option Z) : TraceEvent :=
  {| Type_ := ty; PeerID := peer; Timestamp := ts;
     PublishMessage := None; RejectMessage := None; DuplicateMessage := None;
     DeliverMessage := None; AddPeer := None; RemovePeer := None; Join := None;
     Leave := None; Graft := None; Prune := None; PeerScore := None |}.

(** 2023-11-14 22:13:20.123456789 UTC, in nanoseconds since the epoch. *)
Definition ts : Z := 1700000000123456789.

Definition publish_payload : TraceEventPublishMessage :=
  {| PublishMessage_MessageID := list_byte_of_string "msg-1";
     PublishMessage_Topic := Some "blocks" |}.

Definition publish_event : TraceEvent :=
  {| Type_ := EventTypePublishMessage; PeerID := id_bytes; Timestamp := Some ts;
     PublishMessage := Some publish_payload; RejectMessage := None; DuplicateMessage := None;
     DeliverMessage := None; AddPeer := None; RemovePeer := None; Join := None;
     Leave := None; Graft := None; Prune := None; PeerScore := None |}.

(** A Join event; [peer] and [stamp] vary between the examples. *)
Definition join_event (peer : list Byte.byte) (stamp : option Z) : TraceEvent :=
  {| Type_ := EventTypeJoin; PeerID := peer; Timestamp := stamp;
     PublishMessage := None; RejectMessage := None; DuplicateMessage := None;
     DeliverMessage := None; AddPeer := None; RemovePeer := None;
     Join := Some {| Join_Topic := Some "blocks" |};
     Leave := None; Graft := None; Prune := None; PeerScore := None |}.

Definition topic_score : TopicScore :=
  {| TopicScore_Topic := "blocks";
     TopicScore_TimeInMesh := 60000000000%Z;
     TopicScore_FirstMessageDeliveries := 4607182418800017408%Z;
     TopicScore_MeshMessageDeliveries := 4611686018427387904%Z;
     TopicScore_InvalidMessageDeliveries := 0%Z |}.

(** A PeerScore event from [peer] about the identifier [other]. *)
Definition peer_score_event (peer other : list Byte.byte) (topics : list TopicScore)
    : TraceEvent :=
  {| Type_ := EventTypePeerScore; PeerID := peer; Timestamp := Some ts;
     PublishMessage := None; RejectMessage := None; DuplicateMessage := None;
     DeliverMessage := None; AddPeer := None; RemovePeer := None; Join := None;
     Leave := None; Graft := None; Prune := None;
     PeerScore := Some {| PeerScore_PeerID := other;
                          PeerScore_AppSpecificScore := 4607182418800017408%Z;
                          PeerScore_IPColocationFactor := 0%Z;
                          PeerScore_BehaviourPenalty := 0%Z;
                          PeerScore_Topics := topics |} |}.

(** A server on which the third statement of a transaction fails. *)
Definition third_statement_fails : Server :=
  {| begin_error := None;
     exec_error := fun done _ =>
       if (List.length done =? 2)%nat then Some (errorString "permission denied") else None;
     commit_error := fun _ => None |}.

(** A server on which nothing fails. *)
Definition healthy : Server :=
  {| begin_error := None;
     exec_error := fun _ _ => None;
     commit_error := fun _ => None |}.

End Sample.

(** * Part II: what a statement is made of

    The closed forms the builders are compared with, written from the
    description of the statements, and a scanner that reads the positional
    parameters back out of SQL text. *)

(** The placeholder [$k]. *)
Definition placeholder (k : Z) : string := "$" ++ strconv.Itoa k.

(** The [n] placeholders that follow [$first]: [$(first+1)], ..., [$(first+n)]. *)
Definition placeholders_after (first : Z) (n : nat) : list string :=
  map (fun c => placeholder (first + Z.of_nat c)) (seq 1 n).

(** [INSERT INTO table(col1, ..., colK) VALUES ] *)
Definition insert_header (table : string) (columns : list string) : string :=
  "INSERT INTO " ++ table ++ "(" ++ strings.Join columns ", " ++ ") VALUES ".

(** The value tuple of row [r] (counted from 0) of a flat insert over [K]
    columns: the placeholders [$(r*K+1)] to [$(r*K+K)]. *)
Definition flat_tuple (K r : nat) : string :=
  "(" ++ strings.Join (placeholders_after (Z.of_nat (r * K)) K) ", " ++ ")".

Definition flat_tuples (K N : nat) : list string := map (flat_tuple K) (seq 0 N).

(** The sub-query that stands for the identifier of the parent row. *)
Definition parent_id_subquery (parentTable : string) : string :=
  "(select id from new_" ++ parentTable ++ ")".

(** The text [,$(first+1),...,$(first+n)]. *)
Definition child_params (first : Z) (n : nat) : string :=
  strings.Join (map (fun p => "," ++ p) (placeholders_after first n)) "".

(** The value tuple of child row [r] (counted from 0) after [P] parent
    parameters, over [C] child columns: the sub-query, then [C - 1]
    placeholders. *)
Definition child_tuple (parentTable : string) (P C r : nat) : string :=
  "(" ++ parent_id_subquery parentTable
      ++ child_params (Z.of_nat (P + r * (C - 1))) (C - 1) ++ ")".

Definition child_tuples (parentTable : string) (P C n : nat) : list string :=
  map (child_tuple parentTable P C) (seq 0 n).

(** The parent half of a parent-child statement: a named intermediate result
    holding the identifier the one-row insert returns. *)
Definition parent_cte (parentTable : string) (parentColumns : list string) : string :=
  "WITH new_" ++ parentTable ++ " AS ("
    ++ insert_header parentTable parentColumns
    ++ flat_tuple (List.length parentColumns) 0 ++ " RETURNING id) ".

(** ** Reading the parameters of a statement *)

Definition digit (c : ascii) : option (Decimal.uint -> Decimal.uint) :=
  match c with
  | "0" => Some Decimal.D0
  | "1" => Some Decimal.D1
  | "2" => Some Decimal.D2
  | "3" => Some Decimal.D3
  | "4" => Some Decimal.D4
  | "5" => Some Decimal.D5
  | "6" => Some Decimal.D6
  | "7" => Some Decimal.D7
  | "8" => Some Decimal.D8
  | "9" => Some Decimal.D9
  | _ => None
  end%char.

(** The longest run of decimal digits at the start of [s]. *)
Fixpoint read_digits (s : string) : Decimal.uint :=
  match s with
  | "" => Decimal.Nil
  | String c rest =>
    match digit c with
    | Some d => d (read_digits rest)
    | None => Decimal.Nil
    end
  end.

(** The positional parameters of [s], in the order they occur: every [$]
    that is followed by digits, with the number the digits spell. *)
Fixpoint sql_params (s : string) : list Z :=
  match s with
  | "" => []
  | String c rest =>
    if (c =? "$")%char then
      match read_digits rest with
      | Decimal.Nil => sql_params rest
      | d => Z.of_uint d :: sql_params rest
      end
    else sql_params rest
  end.

(** The numbers [first + 1, ..., first + n]. *)
Definition numbers_after (first : Z) (n : nat) : list Z :=
  map (fun c => (first + Z.of_nat c)%Z) (seq 1 n).

(** How often the character [c] occurs in [s]. *)
Fixpoint count_char (c : ascii) (s : string) : nat :=
  match s with
  | "" => 0
  | String x rest => (if (x =? c)%char then 1 else 0) + count_char c rest
  end.

(** No [$] in [s]. *)
Fixpoint dollar_free (s : string) : bool :=
  match s with
  | "" => true
  | String c rest => negb (c =? "$")%char && dollar_free rest
  end.

(** [sub] occurs in [s]. *)
Fixpoint occurs (sub s : string) : bool :=
  String.prefix sub s ||
  match s with
  | "" => false
  | String _ rest => occurs sub rest
  end.

(** ** Which events a mapper keeps

    The filter of each row mapper, as the specification words it: the
    timestamp is present, the payload of the mapper's own type is set, and
    the envelope's peer identifier and the payload's identifiers decode.
    Only PeerScore retries an identifier after a base64 decoding. *)

Section MapperSpec.

Context `{L : Libs}.

Definition decodes (raw : list Byte.byte) : bool :=
  match snd (IDFromBytes raw) with
  | None => true
  | Some _ => false
  end.

Definition decodes_after_base64 (raw : list Byte.byte) : bool :=
  match DecodeString (string_of_list_byte raw) with
  | (decoded, None) => decodes decoded
  | (_, Some _) => false
  end.

Definition decodes_with_fallback (raw : list Byte.byte) : bool :=
  decodes raw || decodes_after_base64 raw.

Definition on_payload {A : Type} (payload : option A) (ids_ok : A -> bool) : bool :=
  match payload with
  | Some sub => ids_ok sub
  | None => false
  end.

Definition eligible (et : EventType) (ev : TraceEvent) : bool :=
  match Timestamp ev with
  | None => false
  | Some _ =>
    match et with
    | EventTypePublishMessage =>
        on_payload (PublishMessage ev) (fun _ => decodes (PeerID ev))
    | EventTypeRejectMessage =>
        on_payload (RejectMessage ev)
          (fun sub => decodes (PeerID ev) && decodes (RejectMessage_ReceivedFrom sub))
    | EventTypeDuplicateMessage =>
        on_payload (DuplicateMessage ev)
          (fun sub => decodes (PeerID ev) && decodes (DuplicateMessage_ReceivedFrom sub))
    | EventTypeDeliverMessage =>
        on_payload (DeliverMessage ev)
          (fun sub => decodes (PeerID ev) && decodes (DeliverMessage_ReceivedFrom sub))
    | EventTypeAddPeer =>
        on_payload (AddPeer ev)
          (fun sub => decodes (PeerID ev) && decodes (AddPeer_PeerID sub))
    | EventTypeRemovePeer =>
        on_payload (RemovePeer ev)
          (fun sub => decodes (PeerID ev) && decodes (RemovePeer_PeerID sub))
    | EventTypeJoin =>
        on_payload (Join ev) (fun _ => decodes (PeerID ev))
    | EventTypeLeave =>
        on_payload (Leave ev) (fun _ => decodes (PeerID ev))
    | EventTypeGraft =>
        on_payload (Graft ev)
          (fun sub => decodes (PeerID ev) && decodes (Graft_PeerID sub))
    | EventTypePrune =>
        on_payload (Prune ev)
          (fun sub => decodes (PeerID ev) && decodes (Prune_PeerID sub))
    | EventTypePeerScore =>
        on_payload (PeerScore ev)
          (fun sub => decodes_with_fallback (PeerID ev)
                      && decodes_with_fallback (PeerScore_PeerID sub))
    end
  end.

(** The rows a loop body yields over a sequence, one per event it keeps. *)
Fixpoint kept_rows (body : TraceEvent -> option (list value)) (evs : list TraceEvent)
    : list (list value) :=
  match evs with
  | [] => []
  | ev :: rest =>
    match body ev with
    | Some row => row :: kept_rows body rest
    | None => kept_rows body rest
    end
  end.

(** The ten flat mappers, each with the event type it is registered under. *)
Definition flat_kinds
    : list (EventType * (string * list string * (TraceEvent -> option (list value)))) :=
  [ (EventTypePublishMessage, ("publish_message_event", publish_message_cols, publish_message_body));
    (EventTypeRejectMessage, ("reject_message_event", reject_message_cols, reject_message_body));
    (EventTypeDuplicateMessage,
       ("duplicate_message_event", duplicate_message_cols, duplicate_message_body));
    (EventTypeDeliverMessage, ("deliver_message_event", deliver_message_cols, deliver_message_body));
    (EventTypeAddPeer, ("add_peer_event", add_peer_cols, add_peer_body));
    (EventTypeRemovePeer, ("remove_peer_event", remove_peer_cols, remove_peer_body));
    (EventTypeJoin, ("join_event", join_cols, join_body));
    (EventTypeLeave, ("leave_event", leave_cols, leave_body));
    (EventTypeGraft, ("graft_event", graft_cols, graft_body));
    (EventTypePrune, ("prune_event", prune_cols, prune_body)) ].

End MapperSpec.

(** The event [ev] with its declared type replaced by [ty]. *)
Definition with_Type (ty : EventType) (ev : TraceEvent) : TraceEvent :=
  {| Type_ := ty;
     PeerID := PeerID ev;
     Timestamp := Timestamp ev;
     PublishMessage := PublishMessage ev;
     RejectMessage := RejectMessage ev;
     DuplicateMessage := DuplicateMessage ev;
     DeliverMessage := DeliverMessage ev;
     AddPeer := AddPeer ev;
     RemovePeer := RemovePeer ev;
     Join := Join ev;
     Leave := Leave ev;
     Graft := Graft ev;
     Prune := Prune ev;
     PeerScore := PeerScore ev |}.

(** ** What the schema transaction executes *)

(** The statement an entry of the registry contributes. *)
Definition ddl_of (entry : EventType * EventDef) : string := DDL (snd entry).

(** The server accepts the statements [stmts] one after the other, inside a
    transaction that has already executed [done]. *)
Fixpoint execs_ok (srv : Server) (done : list string) (stmts : list string) : Prop :=
  match stmts with
  | [] => True
  | sql :: rest => exec_error srv done sql = None /\ execs_ok srv (done ++ [sql])%list rest
  end.

(** An entry [ensureDatabaseSchema] does not skip. *)
Definition has_ddl (entry : EventType * EventDef) : bool :=
  negb (DDL (snd entry) =? "")%string
  && match BatchInsert (snd entry) with Some _ => true | None => false end.

(** ** What the PeerScore mapper queues for one event *)

(** The five values a topic score contributes, in column order. *)
Definition topic_values (t : TopicScore) : list value :=
  [ VString (TopicScore_Topic t);
    VDuration (TopicScore_TimeInMesh t);
    VFloat64 (TopicScore_FirstMessageDeliveries t);
    VFloat64 (TopicScore_MeshMessageDeliveries t);
    VFloat64 (TopicScore_InvalidMessageDeliveries t) ].

(** The statements one turn of the PeerScore loop adds to an empty batch. *)
Definition peer_score_queued `{L : Libs} (ev : TraceEvent) : Batch :=
  fst (peer_score_step ([], 0%Z) ev).

(** The number of topic scores of an event, 0 without a PeerScore payload. *)
Definition topic_count (ev : TraceEvent) : nat :=
  match PeerScore ev with
  | Some sub => List.length (PeerScore_Topics sub)
  | None => 0
  end.

(** ** Connection strings and DDL texts *)

(** No space in [s]. *)
Fixpoint space_free (s : string) : bool :=
  match s with
  | "" => true
  | String c rest => negb (c =? " ")%char && space_free rest
  end.





(** * Part III: properties *)

(** ** Strings and machine integers *)

Lemma string_app_assoc (a b c : string) : (a ++ b) ++ c = a ++ (b ++ c).
Proof. induction a as [|x a IH]; simpl; [reflexivity | now rewrite IH]. Qed.

Lemma string_app_nil_r (a : string) : a ++ "" = a.
Proof. induction a as [|x a IH]; simpl; [reflexivity | now rewrite IH]. Qed.

(** Brings nested appends into right-associated form. *)
Ltac string_normal :=
  repeat (rewrite string_app_assoc || rewrite string_app_nil_r); cbn [append].

Lemma wrap_small (z : Z) : (GoInt.min_int <= z <= GoInt.max_int)%Z -> GoInt.wrap z = z.
Proof.
  unfold GoInt.wrap, GoInt.min_int, GoInt.max_int; intros H.
  rewrite Z.mod_small; lia.
Qed.

Lemma incr_small (z : Z) : (0 <= z < GoInt.max_int)%Z -> GoInt.incr z = (z + 1)%Z.
Proof.
  unfold GoInt.incr; intros H; apply wrap_small.
  unfold GoInt.min_int, GoInt.max_int in *; lia.
Qed.

Lemma Join_snoc (l : list string) (x sep : string) :
  strings.Join (l ++ [x]) sep
  = (if (0 <? List.length l)%nat then strings.Join l sep ++ sep else "") ++ x.
Proof.
  induction l as [|a l IH]; [reflexivity|].
  destruct l as [|a' l]; [simpl; now string_normal|].
  change (strings.Join ((a :: a' :: l) ++ [x]) sep)
    with (a ++ sep ++ strings.Join ((a' :: l) ++ [x]) sep).
  rewrite IH.
  change (strings.Join (a :: a' :: l) sep) with (a ++ sep ++ strings.Join (a' :: l) sep).
  cbn [List.length Nat.ltb Nat.leb]. now string_normal.
Qed.

Lemma placeholders_after_S (first : Z) (n : nat) :
  placeholders_after first (S n)
  = (placeholders_after first n ++ [placeholder (first + Z.of_nat (S n))])%list.
Proof. unfold placeholders_after. now rewrite seq_S, map_app. Qed.

Lemma placeholders_after_length (first : Z) (n : nat) :
  List.length (placeholders_after first n) = n.
Proof. unfold placeholders_after. now rewrite length_map, length_seq. Qed.

(** ** The loops of the builders, in closed form *)

Lemma flat_columns_closed (n : nat) (b : string) (idx : Z) :
  (0 <= idx)%Z -> (idx + Z.of_nat n <= GoInt.max_int)%Z ->
  flat_columns n (b, idx)
  = (b ++ strings.Join (placeholders_after idx n) ", ", (idx + Z.of_nat n)%Z).
Proof.
  intros H0. unfold flat_columns.
  induction n as [|n IH]; intros Hmax.
  - simpl. string_normal. now rewrite Z.add_0_r.
  - rewrite seq_S, fold_left_app, IH by lia.
    rewrite placeholders_after_S, Join_snoc, placeholders_after_length.
    cbn [fold_left flat_column Nat.add].
    rewrite incr_small by lia.
    unfold strings.WriteString, placeholder.
    replace (idx + Z.of_nat n + 1)%Z with (idx + Z.of_nat (S n))%Z by lia.
    f_equal. destruct n as [|n]; simpl; now string_normal.
Qed.

Lemma flat_row_closed (K r : nat) (b : string) :
  (Z.of_nat (S r * K) <= GoInt.max_int)%Z ->
  flat_row K (b, Z.of_nat (r * K)) r
  = (b ++ (if (0 <? r)%nat then "," else "") ++ flat_tuple K r, Z.of_nat (S r * K)).
Proof.
  intros Hmax. unfold flat_row, strings.WriteString.
  assert (E : forall b0, flat_columns K (b0, Z.of_nat (r * K))
            = (b0 ++ strings.Join (placeholders_after (Z.of_nat (r * K)) K) ", ",
               Z.of_nat (S r * K))).
  { intros b0. rewrite flat_columns_closed by lia. f_equal. lia. }
  unfold flat_tuple.
  destruct (0 <? r)%nat; rewrite E; f_equal; now rewrite !string_app_assoc.
Qed.

Lemma flat_tuples_S (K N : nat) :
  flat_tuples K (S N) = (flat_tuples K N ++ [flat_tuple K N])%list.
Proof. unfold flat_tuples. now rewrite seq_S, map_app. Qed.

Lemma flat_tuples_length (K N : nat) : List.length (flat_tuples K N) = N.
Proof. unfold flat_tuples. now rewrite length_map, length_seq. Qed.

Lemma flat_rows_closed (K N : nat) (b : string) :
  (Z.of_nat (N * K) <= GoInt.max_int)%Z ->
  fold_left (flat_row K) (seq 0 N) (b, 0%Z)
  = (b ++ strings.Join (flat_tuples K N) ",", Z.of_nat (N * K)).
Proof.
  induction N as [|N IH]; intros Hmax.
  - simpl. now string_normal.
  - rewrite seq_S, fold_left_app, IH by lia.
    cbn [fold_left Nat.add].
    rewrite flat_row_closed by lia.
    rewrite flat_tuples_S, Join_snoc, flat_tuples_length. f_equal.
    destruct N as [|N]; simpl; now string_normal.
Qed.

Lemma buildBulkInsert_closed (table : string) (columns : list string) (N : nat) :
  (Z.of_nat (N * List.length columns) <= GoInt.max_int)%Z ->
  buildBulkInsert table columns (Z.of_nat N)
  = insert_header table columns ++ strings.Join (flat_tuples (List.length columns) N) ",".
Proof.
  intros Hmax. unfold buildBulkInsert, flat_rows, strings.WriteString.
  rewrite Nat2Z.id, flat_rows_closed by exact Hmax.
  reflexivity.
Qed.

Lemma child_columns_closed (m : nat) (b : string) (idx : Z) :
  (0 <= idx)%Z -> (idx + Z.of_nat m <= GoInt.max_int)%Z ->
  fold_left child_column (seq 1 m) (b, idx)
  = (b ++ child_params idx m, (idx + Z.of_nat m)%Z).
Proof.
  intros H0. unfold child_params.
  induction m as [|m IH]; intros Hmax.
  - simpl. string_normal. now rewrite Z.add_0_r.
  - rewrite seq_S, fold_left_app, IH by lia.
    rewrite placeholders_after_S, map_app. simpl (map _ [_]).
    rewrite Join_snoc, length_map, placeholders_after_length.
    cbn [fold_left child_column].
    rewrite incr_small by lia.
    unfold strings.WriteString, placeholder.
    replace (idx + Z.of_nat m + 1)%Z with (idx + Z.of_nat (S m))%Z by lia.
    f_equal. destruct m as [|m]; simpl; now string_normal.
Qed.

Lemma child_row_closed (pt : string) (P C r : nat) (b : string) :
  (Z.of_nat (P + S r * (C - 1)) <= GoInt.max_int)%Z ->
  child_row pt C (b, Z.of_nat (P + r * (C - 1))) r
  = (b ++ (if (0 <? r)%nat then "," else "") ++ child_tuple pt P C r,
     Z.of_nat (P + S r * (C - 1))).
Proof.
  unfold child_row, child_columns, child_tuple, parent_id_subquery, strings.WriteString.
  generalize (C - 1)%nat as m. intros m Hmax.
  assert (E : forall b0, fold_left child_column (seq 1 m) (b0, Z.of_nat (P + r * m))
            = (b0 ++ child_params (Z.of_nat (P + r * m)) m, Z.of_nat (P + S r * m))).
  { intros b0. rewrite child_columns_closed by lia. f_equal. lia. }
  destruct (0 <? r)%nat; rewrite E; f_equal; now string_normal.
Qed.

Lemma child_tuples_S (pt : string) (P C n : nat) :
  child_tuples pt P C (S n) = (child_tuples pt P C n ++ [child_tuple pt P C n])%list.
Proof. unfold child_tuples. now rewrite seq_S, map_app. Qed.

Lemma child_tuples_length (pt : string) (P C n : nat) :
  List.length (child_tuples pt P C n) = n.
Proof. unfold child_tuples. now rewrite length_map, length_seq. Qed.

Lemma child_rows_closed (pt : string) (P C n : nat) (b : string) :
  (Z.of_nat (P + n * (C - 1)) <= GoInt.max_int)%Z ->
  fold_left (child_row pt C) (seq 0 n) (b, Z.of_nat P)
  = (b ++ strings.Join (child_tuples pt P C n) ",", Z.of_nat (P + n * (C - 1))).
Proof.
  induction n as [|n IH]; intros Hmax.
  - simpl. string_normal. now rewrite Nat.add_0_r.
  - assert (Hle : (P + n * (C - 1) <= P + S n * (C - 1))%nat)
      by (generalize (C - 1)%nat; intros m; simpl; lia).
    rewrite seq_S, fold_left_app, IH
      by (eapply Z.le_trans; [apply Nat2Z.inj_le, Hle | exact Hmax]).
    cbn [fold_left Nat.add].
    rewrite child_row_closed by exact Hmax.
    rewrite child_tuples_S, Join_snoc, child_tuples_length. f_equal.
    destruct n as [|n]; simpl; now string_normal.
Qed.

Lemma buildBulkInsertParentChild_closed (pt : string) (pcols : list string)
    (ct : string) (ccols : list string) (n : nat) :
  n <> 0%nat ->
  (Z.of_nat (List.length pcols + n * (List.length ccols - 1)) <= GoInt.max_int)%Z ->
  buildBulkInsertParentChild pt pcols ct ccols (Z.of_nat n)
  = parent_cte pt pcols ++ insert_header ct ccols
      ++ strings.Join (child_tuples pt (List.length pcols) (List.length ccols) n) ",".
Proof.
  intros Hn Hmax. unfold buildBulkInsertParentChild.
  destruct (Z.of_nat n =? 0)%Z eqn:E; [apply Z.eqb_eq in E; lia|].
  unfold child_rows, strings.WriteString.
  assert (HP : (Z.of_nat (List.length pcols) <= GoInt.max_int)%Z)
    by (eapply Z.le_trans; [apply Nat2Z.inj_le, Nat.le_add_r | exact Hmax]).
  rewrite flat_columns_closed by lia.
  rewrite Nat2Z.id, Z.add_0_l, child_rows_closed by exact Hmax.
  unfold parent_cte, flat_tuple, insert_header. cbn [Nat.mul Z.of_nat].
  now string_normal.
Qed.

(** ** Reading parameters back *)

Lemma read_digits_uint (u : Decimal.uint) (rest : string) :
  read_digits rest = Decimal.Nil ->
  read_digits (NilEmpty.string_of_uint u ++ rest) = u.
Proof. intros H. induction u; simpl; try assumption; now rewrite IHu. Qed.

Lemma sql_params_uint (u : Decimal.uint) (rest : string) :
  sql_params (NilEmpty.string_of_uint u ++ rest) = sql_params rest.
Proof. induction u; simpl; auto. Qed.

Lemma Itoa_nonneg (k : Z) :
  (0 <= k)%Z ->
  exists u, u <> Decimal.Nil /\ strconv.Itoa k = NilEmpty.string_of_uint u /\ Z.of_uint u = k.
Proof.
  intros Hk. destruct k as [|p|p]; [| |lia].
  - exists (Decimal.D0 Decimal.Nil). repeat split. discriminate.
  - exists (Pos.to_uint p). split; [apply DecimalPos.Unsigned.to_uint_nonnil|].
    split.
    + unfold strconv.Itoa, Z.to_int, NilZero.string_of_int, NilZero.string_of_uint.
      destruct (Pos.to_uint p) eqn:E; try reflexivity.
      now apply DecimalPos.Unsigned.to_uint_nonnil in E.
    + unfold Z.of_uint. now rewrite DecimalPos.Unsigned.of_to.
Qed.

Lemma sql_params_placeholder (k : Z) (rest : string) :
  (0 <= k)%Z -> read_digits rest = Decimal.Nil ->
  sql_params (placeholder k ++ rest) = k :: sql_params rest.
Proof.
  intros Hk Hrest. destruct (Itoa_nonneg k Hk) as (u & Hu & E & Hv).
  unfold placeholder. rewrite E.
  cbn [append sql_params Ascii.eqb Bool.eqb].
  rewrite read_digits_uint, sql_params_uint by exact Hrest.
  rewrite <- Hv. destruct u; [contradiction | reflexivity ..].
Qed.

Lemma sql_params_dollar_free (s rest : string) :
  dollar_free s = true -> sql_params (s ++ rest) = sql_params rest.
Proof.
  induction s as [|c s IH]; simpl; [reflexivity|].
  intros H. apply andb_prop in H as [Hc Hs].
  destruct (c =? "$")%char; [discriminate | auto].
Qed.

Lemma read_digits_app (s rest : string) :
  read_digits rest = Decimal.Nil -> read_digits (s ++ rest) = read_digits s.
Proof.
  intros H. induction s as [|c s IH]; simpl; [assumption|].
  destruct (digit c); [now f_equal | reflexivity].
Qed.

Lemma sql_params_app (s rest : string) :
  read_digits rest = Decimal.Nil ->
  sql_params (s ++ rest) = (sql_params s ++ sql_params rest)%list.
Proof.
  intros H. induction s as [|c s IH]; simpl; [reflexivity|].
  rewrite read_digits_app, IH by exact H.
  destruct (c =? "$")%char; [|reflexivity].
  destruct (read_digits s); reflexivity.
Qed.

Lemma placeholders_after_numbers (first : Z) (n : nat) :
  placeholders_after first n = map placeholder (numbers_after first n).
Proof. unfold placeholders_after, numbers_after. now rewrite map_map. Qed.

Lemma numbers_after_nonneg (first : Z) (n : nat) :
  (0 <= first)%Z -> Forall (fun k => 0 <= k)%Z (numbers_after first n).
Proof.
  intros H. unfold numbers_after. apply Forall_map, Forall_forall. intros c _. lia.
Qed.

Lemma sql_params_Join_placeholders (ks : list Z) (rest : string) :
  Forall (fun k => 0 <= k)%Z ks -> read_digits rest = Decimal.Nil ->
  sql_params (strings.Join (map placeholder ks) ", " ++ rest)
  = (ks ++ sql_params rest)%list.
Proof.
  intros Hks Hrest. induction Hks as [|k ks Hk Hks IH]; [reflexivity|].
  destruct ks as [|k' ks].
  - simpl. now apply sql_params_placeholder.
  - change (strings.Join (map placeholder (k :: k' :: ks)) ", ")
      with (placeholder k ++ ", " ++ strings.Join (map placeholder (k' :: ks)) ", ").
    rewrite !string_app_assoc, sql_params_placeholder by (assumption || reflexivity).
    cbn [app]. f_equal. exact IH.
Qed.

Lemma sql_params_flat_tuple (K r : nat) (rest : string) :
  sql_params (flat_tuple K r ++ rest)
  = (numbers_after (Z.of_nat (r * K)) K ++ sql_params rest)%list.
Proof.
  unfold flat_tuple. rewrite placeholders_after_numbers.
  rewrite !string_app_assoc. cbn [append sql_params Ascii.eqb Bool.eqb].
  rewrite sql_params_Join_placeholders by (apply numbers_after_nonneg; lia) || reflexivity.
  reflexivity.
Qed.

Lemma numbers_after_shift (first : Z) (a b s : nat) :
  map (fun c => (first + Z.of_nat c)%Z) (seq (a + s) b)
  = map (fun c => (first + Z.of_nat a + Z.of_nat c)%Z) (seq s b).
Proof.
  revert s. induction b as [|b IH]; intros s; [reflexivity|].
  cbn [seq map]. f_equal; [lia|].
  rewrite <- IH. now rewrite Nat.add_succ_r.
Qed.

Lemma numbers_after_app (first : Z) (a b : nat) :
  numbers_after first (a + b)
  = (numbers_after first a ++ numbers_after (first + Z.of_nat a) b)%list.
Proof.
  unfold numbers_after. rewrite seq_app, map_app. f_equal.
  rewrite (Nat.add_comm 1 a). apply numbers_after_shift.
Qed.

Lemma numbers_after_length (first : Z) (n : nat) : List.length (numbers_after first n) = n.
Proof. unfold numbers_after. now rewrite length_map, length_seq. Qed.

Lemma numbers_after_0 (n : nat) : numbers_after 0 n = map Z.of_nat (seq 1 n).
Proof. unfold numbers_after. apply map_ext. intros c. lia. Qed.

Lemma sql_params_flat_tuples (K N : nat) (rest : string) :
  sql_params (strings.Join (flat_tuples K N) "," ++ rest)
  = (numbers_after 0 (N * K) ++ sql_params rest)%list.
Proof.
  revert rest. induction N as [|N IH]; intros rest; [reflexivity|].
  rewrite flat_tuples_S, Join_snoc, flat_tuples_length.
  replace (S N * K)%nat with (N * K + K)%nat by lia.
  rewrite numbers_after_app, <- app_assoc, Z.add_0_l.
  destruct N as [|N].
  - cbn [Nat.ltb Nat.leb append]. apply sql_params_flat_tuple.
  - cbn [Nat.ltb Nat.leb]. rewrite !string_app_assoc, IH.
    f_equal. cbn [append sql_params Ascii.eqb Bool.eqb].
    apply sql_params_flat_tuple.
Qed.

Lemma sql_params_child_params_gen (ks : list Z) (rest : string) :
  Forall (fun k => 0 <= k)%Z ks -> read_digits rest = Decimal.Nil ->
  sql_params (strings.Join (map (fun p => "," ++ p) (map placeholder ks)) "" ++ rest)
  = (ks ++ sql_params rest)%list
  /\ read_digits (strings.Join (map (fun p => "," ++ p) (map placeholder ks)) "" ++ rest)
     = Decimal.Nil.
Proof.
  intros Hks Hrest. induction Hks as [|k ks Hk Hks IH]; [now split|].
  destruct IH as [IH1 IH2].
  destruct ks as [|k' ks].
  - split; [|reflexivity].
    cbn [map strings.Join]. rewrite string_app_assoc.
    cbn [append sql_params Ascii.eqb Bool.eqb].
    now apply sql_params_placeholder.
  - change (strings.Join (map (fun p => "," ++ p) (map placeholder (k :: k' :: ks))) "")
      with (("," ++ placeholder k) ++ ""
              ++ strings.Join (map (fun p => "," ++ p) (map placeholder (k' :: ks))) "").
    split; [|reflexivity].
    rewrite !string_app_assoc. cbn [append sql_params Ascii.eqb Bool.eqb].
    rewrite sql_params_placeholder by assumption.
    cbn [app]. f_equal. exact IH1.
Qed.

Lemma sql_params_child_params (first : Z) (m : nat) (rest : string) :
  (0 <= first)%Z -> read_digits rest = Decimal.Nil ->
  sql_params (child_params first m ++ rest) = (numbers_after first m ++ sql_params rest)%list.
Proof.
  intros H0 Hrest. unfold child_params. rewrite placeholders_after_numbers.
  now apply sql_params_child_params_gen; [apply numbers_after_nonneg|].
Qed.

Lemma sql_params_child_tuple (pt : string) (P C r : nat) (rest : string) :
  dollar_free pt = true ->
  sql_params (child_tuple pt P C r ++ rest)
  = (numbers_after (Z.of_nat (P + r * (C - 1))) (C - 1) ++ sql_params rest)%list.
Proof.
  intros Hpt. unfold child_tuple, parent_id_subquery.
  rewrite !string_app_assoc. cbn [append sql_params Ascii.eqb Bool.eqb].
  rewrite sql_params_dollar_free by exact Hpt.
  cbn [append sql_params Ascii.eqb Bool.eqb].
  rewrite sql_params_child_params by (apply Nat2Z.is_nonneg || reflexivity).
  reflexivity.
Qed.

Lemma sql_params_child_tuples (pt : string) (P C n : nat) (rest : string) :
  dollar_free pt = true ->
  sql_params (strings.Join (child_tuples pt P C n) "," ++ rest)
  = (numbers_after (Z.of_nat P) (n * (C - 1)) ++ sql_params rest)%list.
Proof.
  intros Hpt. revert rest. induction n as [|n IH]; intros rest; [reflexivity|].
  rewrite child_tuples_S, Join_snoc, child_tuples_length.
  replace (S n * (C - 1))%nat with (n * (C - 1) + (C - 1))%nat by (simpl; lia).
  rewrite numbers_after_app, <- app_assoc, <- Nat2Z.inj_add.
  destruct n as [|n].
  - cbn [Nat.ltb Nat.leb append]. now apply sql_params_child_tuple.
  - cbn [Nat.ltb Nat.leb]. rewrite !string_app_assoc, IH.
    f_equal. cbn [append sql_params Ascii.eqb Bool.eqb].
    now apply sql_params_child_tuple.
Qed.

Lemma dollar_free_app (a b : string) :
  dollar_free (a ++ b) = dollar_free a && dollar_free b.
Proof.
  induction a as [|c a IH]; [reflexivity|].
  simpl. rewrite IH. now rewrite andb_assoc.
Qed.

Lemma dollar_free_Join (cols : list string) :
  forallb dollar_free cols = true -> dollar_free (strings.Join cols ", ") = true.
Proof.
  induction cols as [|c cols IH]; [reflexivity|].
  intros H. cbn [forallb] in H. apply andb_prop in H as [Hc Hcols].
  destruct cols as [|c' cols]; [exact Hc|].
  change (strings.Join (c :: c' :: cols) ", ") with (c ++ ", " ++ strings.Join (c' :: cols) ", ").
  rewrite !dollar_free_app, Hc, IH by exact Hcols. reflexivity.
Qed.

Lemma dollar_free_insert_header (table : string) (columns : list string) :
  dollar_free table = true -> forallb dollar_free columns = true ->
  dollar_free (insert_header table columns) = true.
Proof.
  intros Ht Hc. unfold insert_header.
  rewrite !dollar_free_app, Ht, dollar_free_Join by exact Hc. reflexivity.
Qed.

(** ** Counting tuples *)

Lemma count_char_app (c : ascii) (a b : string) :
  count_char c (a ++ b) = count_char c a + count_char c b.
Proof. induction a as [|x a IH]; simpl; [reflexivity | rewrite IH; lia]. Qed.

Lemma count_open_uint (u : Decimal.uint) : count_char "(" (NilEmpty.string_of_uint u) = 0.
Proof. induction u; simpl; auto. Qed.

Lemma count_open_placeholder (k : Z) : (0 <= k)%Z -> count_char "(" (placeholder k) = 0.
Proof.
  intros Hk. destruct (Itoa_nonneg k Hk) as (u & _ & E & _).
  unfold placeholder. rewrite E. simpl. apply count_open_uint.
Qed.

Lemma count_open_Join_placeholders (ks : list Z) :
  Forall (fun k => 0 <= k)%Z ks ->
  count_char "(" (strings.Join (map placeholder ks) ", ") = 0.
Proof.
  induction 1 as [|k ks Hk Hks IH]; [reflexivity|].
  destruct ks as [|k' ks]; [now apply count_open_placeholder|].
  change (strings.Join (map placeholder (k :: k' :: ks)) ", ")
    with (placeholder k ++ ", " ++ strings.Join (map placeholder (k' :: ks)) ", ").
  rewrite !count_char_app, IH, count_open_placeholder by exact Hk. reflexivity.
Qed.

Lemma count_open_flat_tuple (K r : nat) : count_char "(" (flat_tuple K r) = 1.
Proof.
  unfold flat_tuple. rewrite placeholders_after_numbers, !count_char_app.
  rewrite count_open_Join_placeholders by (apply numbers_after_nonneg; lia).
  reflexivity.
Qed.

Lemma count_open_flat_tuples (K N : nat) :
  count_char "(" (strings.Join (flat_tuples K N) ",") = N.
Proof.
  induction N as [|N IH]; [reflexivity|].
  rewrite flat_tuples_S, Join_snoc, flat_tuples_length, count_char_app, count_open_flat_tuple.
  destruct N as [|N]; [reflexivity|].
  cbn [Nat.ltb Nat.leb]. rewrite count_char_app, IH. simpl. lia.
Qed.

Lemma nth_map_seq {A : Type} (f : nat -> A) (N r : nat) (d : A) :
  (r < N)%nat -> nth r (map f (seq 0 N)) d = f r.
Proof.
  intros Hr. rewrite nth_indep with (d' := f 0%nat) by now rewrite length_map, length_seq.
  rewrite map_nth, seq_nth by exact Hr. reflexivity.
Qed.

Lemma sql_params_parent_child (pt : string) (pcols : list string) (ct : string)
    (ccols : list string) (n : nat) :
  dollar_free pt = true -> forallb dollar_free pcols = true ->
  dollar_free ct = true -> forallb dollar_free ccols = true ->
  sql_params (parent_cte pt pcols ++ insert_header ct ccols
                ++ strings.Join (child_tuples pt (List.length pcols) (List.length ccols) n) ",")
  = numbers_after 0 (List.length pcols + n * (List.length ccols - 1)).
Proof.
  intros Hpt Hpc Hct Hcc. unfold parent_cte.
  rewrite !string_app_assoc. cbn [append sql_params Ascii.eqb Bool.eqb].
  rewrite sql_params_dollar_free by exact Hpt.
  cbn [append sql_params Ascii.eqb Bool.eqb].
  rewrite sql_params_dollar_free by now apply dollar_free_insert_header.
  rewrite sql_params_flat_tuple.
  cbn [append sql_params Ascii.eqb Bool.eqb].
  rewrite sql_params_dollar_free by now apply dollar_free_insert_header.
  rewrite <- (string_app_nil_r (strings.Join _ ",")).
  rewrite sql_params_child_tuples by exact Hpt.
  rewrite numbers_after_app. cbn [Nat.mul Z.of_nat sql_params Z.add].
  now rewrite List.app_nil_r.
Qed.

(** ** The flat builder *)

(** C2.  For every table, every column list of length [K] and every
    [rowCount >= 1] whose [rowCount * K] placeholders can be counted by an
    [int], [buildBulkInsert] returns [INSERT INTO table(col1, ..., colK) VALUES ]
    followed by exactly [rowCount] parenthesized tuples separated by commas;
    tuple [r] (from 0) holds the placeholders [$(r*K+1)], ..., [$(r*K+K)], and
    the parameters read back from the tuples are [1, 2, ..., rowCount*K] in
    this order: row-major, no gap, no repeat.  (A non-empty column list is not
    needed for this.) *)
Theorem buildBulkInsert_numbering (table : string) (columns : list string) (rowCount : Z) :
  (1 <= rowCount)%Z ->
  (rowCount * Z.of_nat (List.length columns) <= GoInt.max_int)%Z ->
  exists tuples : list string,
    buildBulkInsert table columns rowCount
    = insert_header table columns ++ strings.Join tuples ","
    /\ List.length tuples = Z.to_nat rowCount
    /\ count_char "(" (strings.Join tuples ",") = Z.to_nat rowCount
    /\ (forall r, (r < Z.to_nat rowCount)%nat ->
          nth r tuples ""
          = "(" ++ strings.Join
                     (placeholders_after (Z.of_nat (r * List.length columns))
                                         (List.length columns)) ", " ++ ")")
    /\ sql_params (strings.Join tuples ",")
       = map Z.of_nat (seq 1 (Z.to_nat rowCount * List.length columns)).
Proof.
  intros Hn Hmax.
  exists (flat_tuples (List.length columns) (Z.to_nat rowCount)).
  repeat split.
  - rewrite <- (Z2Nat.id rowCount) at 1 by lia.
    apply buildBulkInsert_closed. rewrite Nat2Z.inj_mul, Z2Nat.id by lia. exact Hmax.
  - apply flat_tuples_length.
  - apply count_open_flat_tuples.
  - intros r Hr. unfold flat_tuples. now rewrite nth_map_seq.
  - rewrite <- (string_app_nil_r (strings.Join _ ",")), sql_params_flat_tuples.
    cbn [sql_params]. now rewrite List.app_nil_r, numbers_after_0.
Qed.

Lemma buildBulkInsert_numbering_witness :
  exists tuples : list string,
    buildBulkInsert "join_event" ["peer_id"; "timestamp"; "topic"] 2
    = insert_header "join_event" ["peer_id"; "timestamp"; "topic"] ++ strings.Join tuples ","
    /\ List.length tuples = 2%nat
    /\ count_char "(" (strings.Join tuples ",") = 2%nat
    /\ (forall r, (r < 2)%nat ->
          nth r tuples ""
          = "(" ++ strings.Join (placeholders_after (Z.of_nat (r * 3)) 3) ", " ++ ")")
    /\ sql_params (strings.Join tuples ",") = [1; 2; 3; 4; 5; 6]%Z.
Proof.
  apply (buildBulkInsert_numbering "join_event" ["peer_id"; "timestamp"; "topic"] 2).
  - lia.
  - unfold GoInt.max_int. simpl. lia.
Defined.

Example buildBulkInsert_join_2 :
  buildBulkInsert "join_event" ["peer_id"; "timestamp"; "topic"] 2
  = "INSERT INTO join_event(peer_id, timestamp, topic) VALUES ($1, $2, $3),($4, $5, $6)".
Proof. reflexivity. Qed.

(** ** The parent-child builder *)

(** C1.  For parent columns of length [P], child columns of length [C] and
    [childRowCount = n > 0] (with [P + n*(C-1)] in the range of [int]),
    [buildBulkInsertParentChild] returns one statement: the named intermediate
    result [new_<parent>] holding the identifier returned by a one-row parent
    insert with the parameters [$1..$P], then the child insert with exactly
    [n] tuples.  Every child tuple starts with the sub-query on
    [new_<parent>] and continues with [C-1] placeholders; tuple [r] holds
    [$(P+r*(C-1)+1)], ..., [$(P+(r+1)*(C-1))].  When no name contains a [$],
    the parameters read from the whole statement are [1, ..., P+n*(C-1)] in
    order. *)
Theorem buildBulkInsertParentChild_numbering (parentTable : string)
    (parentColumns : list string) (childTable : string) (childColumns : list string)
    (childRowCount : Z) :
  (1 <= List.length childColumns)%nat ->
  (0 < childRowCount)%Z ->
  (Z.of_nat (List.length parentColumns
             + Z.to_nat childRowCount * (List.length childColumns - 1)) <= GoInt.max_int)%Z ->
  exists tuples : list string,
    buildBulkInsertParentChild parentTable parentColumns childTable childColumns childRowCount
    = "WITH new_" ++ parentTable ++ " AS ("
        ++ insert_header parentTable parentColumns
        ++ "(" ++ strings.Join (placeholders_after 0 (List.length parentColumns)) ", " ++ ")"
        ++ " RETURNING id) "
        ++ insert_header childTable childColumns ++ strings.Join tuples ","
    /\ sql_params ("(" ++ strings.Join (placeholders_after 0 (List.length parentColumns)) ", " ++ ")")
       = map Z.of_nat (seq 1 (List.length parentColumns))
    /\ List.length tuples = Z.to_nat childRowCount
    /\ (forall r, (r < Z.to_nat childRowCount)%nat ->
          let first := Z.of_nat (List.length parentColumns + r * (List.length childColumns - 1)) in
          nth r tuples ""
          = "(" ++ parent_id_subquery parentTable
                ++ child_params first (List.length childColumns - 1) ++ ")"
          /\ sql_params (child_params first (List.length childColumns - 1))
             = numbers_after first (List.length childColumns - 1))
    /\ (dollar_free parentTable = true -> forallb dollar_free parentColumns = true ->
        dollar_free childTable = true -> forallb dollar_free childColumns = true ->
        sql_params (buildBulkInsertParentChild parentTable parentColumns
                      childTable childColumns childRowCount)
        = map Z.of_nat
            (seq 1 (List.length parentColumns
                    + Z.to_nat childRowCount * (List.length childColumns - 1)))).
Proof.
  intros _ Hn Hmax.
  assert (E : buildBulkInsertParentChild parentTable parentColumns childTable childColumns
                childRowCount
              = parent_cte parentTable parentColumns ++ insert_header childTable childColumns
                  ++ strings.Join (child_tuples parentTable (List.length parentColumns)
                                     (List.length childColumns) (Z.to_nat childRowCount)) ",").
  { rewrite <- (Z2Nat.id childRowCount) at 1 by lia.
    apply buildBulkInsertParentChild_closed; [lia | exact Hmax]. }
  exists (child_tuples parentTable (List.length parentColumns) (List.length childColumns)
            (Z.to_nat childRowCount)).
  split; [|split; [|split; [|split]]].
  - rewrite E. unfold parent_cte, flat_tuple. cbn [Nat.mul Z.of_nat]. now string_normal.
  - change ("(" ++ strings.Join (placeholders_after 0 (List.length parentColumns)) ", " ++ ")")
      with (flat_tuple (List.length parentColumns) 0).
    rewrite <- (string_app_nil_r (flat_tuple _ _)), sql_params_flat_tuple.
    cbn [sql_params Nat.mul Z.of_nat]. now rewrite List.app_nil_r, numbers_after_0.
  - apply child_tuples_length.
  - intros r Hr first. split.
    + unfold child_tuples. now rewrite nth_map_seq.
    + rewrite <- (string_app_nil_r (child_params _ _)).
      rewrite sql_params_child_params by (apply Nat2Z.is_nonneg || reflexivity).
      cbn [sql_params]. now rewrite List.app_nil_r.
  - intros Hpt Hpc Hct Hcc.
    rewrite E, sql_params_parent_child by assumption. apply numbers_after_0.
Qed.

Lemma buildBulkInsertParentChild_numbering_witness :
  exists tuples : list string,
    buildBulkInsertParentChild "peer_score_event" peer_score_parentCols
                               "peer_score_topic" peer_score_childCols 3
    = "WITH new_" ++ "peer_score_event" ++ " AS ("
        ++ insert_header "peer_score_event" peer_score_parentCols
        ++ "(" ++ strings.Join (placeholders_after 0 6) ", " ++ ")"
        ++ " RETURNING id) "
        ++ insert_header "peer_score_topic" peer_score_childCols ++ strings.Join tuples ","
    /\ sql_params ("(" ++ strings.Join (placeholders_after 0 6) ", " ++ ")")
       = [1; 2; 3; 4; 5; 6]%Z
    /\ List.length tuples = 3%nat
    /\ (forall r, (r < 3)%nat ->
          let first := Z.of_nat (6 + r * 5) in
          nth r tuples ""
          = "(" ++ parent_id_subquery "peer_score_event" ++ child_params first 5 ++ ")"
          /\ sql_params (child_params first 5) = numbers_after first 5)
    /\ (dollar_free "peer_score_event" = true ->
        forallb dollar_free peer_score_parentCols = true ->
        dollar_free "peer_score_topic" = true ->
        forallb dollar_free peer_score_childCols = true ->
        sql_params (buildBulkInsertParentChild "peer_score_event" peer_score_parentCols
                      "peer_score_topic" peer_score_childCols 3)
        = map Z.of_nat (seq 1 21)).
Proof.
  apply (buildBulkInsertParentChild_numbering "peer_score_event" peer_score_parentCols
           "peer_score_topic" peer_score_childCols 3).
  - simpl. lia.
  - lia.
  - unfold GoInt.max_int. simpl. lia.
Defined.

Example buildBulkInsertParentChild_peer_score_2 :
  buildBulkInsertParentChild "peer_score_event" peer_score_parentCols
                             "peer_score_topic" peer_score_childCols 2
  = "WITH new_peer_score_event AS (INSERT INTO peer_score_event(peer_id, timestamp, other_peer_id, app_specific_score, ip_colocation_factor, behaviour_penalty) VALUES ($1, $2, $3, $4, $5, $6) RETURNING id) INSERT INTO peer_score_topic(peer_score_event_id, topic, time_in_mesh, first_message_deliveries, mesh_message_deliveries, invalid_message_deliveries) VALUES ((select id from new_peer_score_event),$7,$8,$9,$10,$11),((select id from new_peer_score_event),$12,$13,$14,$15,$16)".
Proof. reflexivity. Qed.

(** C5.  With [childRowCount = 0], [buildBulkInsertParentChild] returns the
    very string [buildBulkInsert] returns for the parent table and one row.
    The statement is the same whatever the child table and the child columns
    are, so nothing in it comes from them: the child table's name occurs in it
    only where the parent-only insert has it, and for the tables of the
    registry it does not occur at all. *)
Theorem buildBulkInsertParentChild_no_children (parentTable : string)
    (parentColumns : list string) (childTable : string) (childColumns : list string) :
  buildBulkInsertParentChild parentTable parentColumns childTable childColumns 0
  = buildBulkInsert parentTable parentColumns 1
  /\ (forall (childTable' : string) (childColumns' : list string),
        buildBulkInsertParentChild parentTable parentColumns childTable' childColumns' 0
        = buildBulkInsertParentChild parentTable parentColumns childTable childColumns 0)
  /\ (occurs childTable (buildBulkInsert parentTable parentColumns 1) = false ->
      occurs childTable
        (buildBulkInsertParentChild parentTable parentColumns childTable childColumns 0)
      = false)
  /\ occurs "peer_score_topic"
       (buildBulkInsertParentChild "peer_score_event" peer_score_parentCols
                                   "peer_score_topic" peer_score_childCols 0) = false
  /\ buildBulkInsertParentChild "peer_score_event" peer_score_parentCols
                                "peer_score_topic" peer_score_childCols 0
     = "INSERT INTO peer_score_event(peer_id, timestamp, other_peer_id, app_specific_score, ip_colocation_factor, behaviour_penalty) VALUES ($1, $2, $3, $4, $5, $6)".
Proof.
  split; [reflexivity|].
  split; [intros childTable' childColumns'; reflexivity|].
  split; [intros H; exact H|].
  split; vm_compute; reflexivity.
Qed.

(** ** The row mappers *)

(** The sample identifiers: base64 text is no identifier, its decoding is. *)
Example Sample_base64 :
  Sample.DecodeString "AAMBAgM=" = (Sample.other_bytes, None)
  /\ Sample.DecodeString "AAKrzQ==" = (Sample.id_bytes, None)
  /\ snd (Sample.IDFromBytes Sample.other_base64) <> None
  /\ snd (Sample.IDFromBytes Sample.id_base64) <> None
  /\ Sample.IDFromBytes Sample.id_bytes = (string_of_list_byte Sample.id_bytes, None).
Proof. vm_compute. repeat split; discriminate. Qed.

Lemma EventType_eq_dec (a b : EventType) : {a = b} + {a <> b}.
Proof. decide equality. Defined.

(** Splits a hypothesis [In x l] over a literal list [l] into its cases. *)
Ltac in_cases H :=
  cbn [In eventDefs flat_kinds] in H;
  repeat (destruct H as [H|H]; [inversion H; subst; clear H|]);
  [..|contradiction H].

(** Case analysis on everything a loop body looks at. *)
Ltac body_cases ev :=
  destruct (Timestamp ev); try reflexivity;
  repeat match goal with
         | |- context [match ?p ev with _ => _ end] => destruct (p ev); try reflexivity
         | |- context [IDFromBytes ?x] =>
             let e := fresh "e" in destruct (IDFromBytes x) as [? [e|]]; try reflexivity
         end.

Section MapperFacts.

Context `{L : Libs}.

Lemma flat_loop_skip (body : TraceEvent -> option (list value))
    (before after : list TraceEvent) (ev : TraceEvent) :
  body ev = None ->
  flat_loop body (before ++ ev :: after) = flat_loop body (before ++ after).
Proof.
  intros H. unfold flat_loop. rewrite !fold_left_app. cbn [fold_left].
  set (acc := fold_left (flat_step body) before ([], 0%Z)).
  assert (E : flat_step body acc ev = acc)
    by (unfold flat_step; destruct acc; now rewrite H).
  now rewrite E.
Qed.


Lemma kept_rows_length (body : TraceEvent -> option (list value)) (evs : list TraceEvent) :
  (List.length (kept_rows body evs) <= List.length evs)%nat.
Proof.
  induction evs as [|ev evs IH]; simpl; [lia|].
  destruct (body ev); simpl; lia.
Qed.

Lemma flat_loop_from (body : TraceEvent -> option (list value)) (evs : list TraceEvent)
    (values : list value) (c : nat) :
  (Z.of_nat (c + List.length evs) <= GoInt.max_int)%Z ->
  fold_left (flat_step body) evs (values, Z.of_nat c)
  = ((values ++ List.concat (kept_rows body evs))%list,
     Z.of_nat (c + List.length (kept_rows body evs))).
Proof.
  revert values c. induction evs as [|ev evs IH]; intros values c Hmax.
  - simpl. now rewrite List.app_nil_r, Nat.add_0_r.
  - cbn [fold_left kept_rows flat_step List.length] in *.
    destruct (body ev) as [row|].
    + rewrite incr_small by lia.
      replace (Z.of_nat c + 1)%Z with (Z.of_nat (S c)) by lia.
      rewrite IH by lia. cbn [List.concat List.length].
      rewrite <- app_assoc. f_equal. f_equal. lia.
    + apply IH. lia.
Qed.

Lemma flat_loop_closed (body : TraceEvent -> option (list value)) (evs : list TraceEvent) :
  (Z.of_nat (List.length evs) <= GoInt.max_int)%Z ->
  flat_loop body evs
  = (List.concat (kept_rows body evs), Z.of_nat (List.length (kept_rows body evs))).
Proof. intros H. unfold flat_loop. exact (flat_loop_from body evs [] 0 H). Qed.

Lemma concat_rows_length (K : nat) (rows : list (list value)) :
  Forall (fun row => List.length row = K) rows ->
  List.length (List.concat rows) = (List.length rows * K)%nat.
Proof.
  induction 1 as [|row rows Hrow Hrows IH]; [reflexivity|].
  cbn [List.concat List.length]. rewrite length_app, Hrow, IH. simpl. lia.
Qed.

Lemma kept_rows_Forall (body : TraceEvent -> option (list value)) (P : list value -> Prop)
    (evs : list TraceEvent) :
  (forall ev row, body ev = Some row -> P row) -> Forall P (kept_rows body evs).
Proof.
  intros H. induction evs as [|ev evs IH]; simpl; [constructor|].
  destruct (body ev) as [row|] eqn:E; [constructor; eauto | assumption].
Qed.

Lemma kept_rows_filter (body : TraceEvent -> option (list value)) (keep : TraceEvent -> bool)
    (evs : list TraceEvent) :
  (forall ev, keep ev = match body ev with Some _ => true | None => false end) ->
  List.length (kept_rows body evs) = List.length (filter keep evs).
Proof.
  intros H. induction evs as [|ev evs IH]; simpl; [reflexivity|].
  rewrite H. destruct (body ev); simpl; now rewrite IH.
Qed.

Lemma eventDefs_flat (et : EventType) (def : EventDef) (f : BatchInsertFunc) :
  In (et, def) eventDefs -> et <> EventTypePeerScore -> BatchInsert def = Some f ->
  exists cols body,
    In (et, (Name def, cols, body)) flat_kinds /\ f = flat_BatchInsert (Name def) cols body.
Proof.
  intros Hin Hne Hf. in_cases Hin; cbn [BatchInsert Name] in *;
    try (exfalso; apply Hne; reflexivity);
    inversion Hf; subst; clear Hf;
    do 2 eexists; (split; [|reflexivity]); cbn [In flat_kinds]; tauto.
Qed.

Lemma flat_kinds_eligible (et : EventType) (table : string) (cols : list string)
    (body : TraceEvent -> option (list value)) (ev : TraceEvent) :
  In (et, (table, cols, body)) flat_kinds ->
  eligible et ev = match body ev with Some _ => true | None => false end.
Proof.
  intros Hin. in_cases Hin;
    unfold eligible, on_payload, decodes;
    unfold publish_message_body, reject_message_body, duplicate_message_body,
      deliver_message_body, add_peer_body, remove_peer_body, join_body, leave_body,
      graft_body, prune_body;
    body_cases ev.
Qed.

Lemma flat_kinds_row_length (et : EventType) (table : string) (cols : list string)
    (body : TraceEvent -> option (list value)) (ev : TraceEvent) (row : list value) :
  In (et, (table, cols, body)) flat_kinds ->
  body ev = Some row -> List.length row = List.length cols.
Proof.
  intros Hin. in_cases Hin;
    unfold publish_message_body, reject_message_body, duplicate_message_body,
      deliver_message_body, add_peer_body, remove_peer_body, join_body, leave_body,
      graft_body, prune_body;
    destruct (Timestamp ev); try discriminate;
    repeat match goal with
           | |- context [match ?p ev with _ => _ end] => destruct (p ev); try discriminate
           | |- context [IDFromBytes ?x] =>
               let e := fresh "e" in destruct (IDFromBytes x) as [? [e|]]; try discriminate
           end;
    intros H; inversion H; reflexivity.
Qed.

Lemma flat_kinds_cols (et : EventType) (table : string) (cols : list string)
    (body : TraceEvent -> option (list value)) :
  In (et, (table, cols, body)) flat_kinds -> (3 <= List.length cols <= 6)%nat.
Proof. intros Hin. in_cases Hin; simpl; lia. Qed.

Lemma flat_kinds_no_timestamp (et : EventType) (table : string) (cols : list string)
    (body : TraceEvent -> option (list value)) (ev : TraceEvent) :
  In (et, (table, cols, body)) flat_kinds -> Timestamp ev = None -> body ev = None.
Proof.
  intros Hin Hts. in_cases Hin;
    unfold publish_message_body, reject_message_body, duplicate_message_body,
      deliver_message_body, add_peer_body, remove_peer_body, join_body, leave_body,
      graft_body, prune_body; now rewrite Hts.
Qed.

Lemma flat_kinds_retag (et : EventType) (table : string) (cols : list string)
    (body : TraceEvent -> option (list value)) (ty : EventType) (ev : TraceEvent) :
  In (et, (table, cols, body)) flat_kinds -> body (with_Type ty ev) = body ev.
Proof. intros Hin. in_cases Hin; reflexivity. Qed.

Lemma peer_score_step_no_timestamp (st : Batch * Z) (ev : TraceEvent) :
  Timestamp ev = None -> peer_score_step st ev = st.
Proof. intros H. unfold peer_score_step. rewrite H. now destruct st. Qed.

Lemma flat_BatchInsert_closed (table : string) (cols : list string)
    (body : TraceEvent -> option (list value)) (evs : list TraceEvent) :
  (Z.of_nat (List.length evs) <= GoInt.max_int)%Z ->
  flat_BatchInsert table cols body evs
  = ([{| SQL := buildBulkInsert table cols (Z.of_nat (List.length (kept_rows body evs)));
         Arguments := List.concat (kept_rows body evs) |}], None).
Proof.
  intros H. unfold flat_BatchInsert. rewrite flat_loop_closed by exact H. reflexivity.
Qed.

End MapperFacts.

(** Unfolds the ten flat [BatchInsert] functions down to their loops. *)
Ltac unfold_flat :=
  unfold publish_message_BatchInsert, reject_message_BatchInsert,
    duplicate_message_BatchInsert, deliver_message_BatchInsert, add_peer_BatchInsert,
    remove_peer_BatchInsert, join_BatchInsert, leave_BatchInsert, graft_BatchInsert,
    prune_BatchInsert, flat_BatchInsert.

(** Splits on the entry of [eventDefs] that [Hin] names and puts its
    [BatchInsert] function in the place of [f]. *)
Ltac registry_cases Hin Hf :=
  in_cases Hin; cbn [BatchInsert] in Hf; inversion Hf; subst; clear Hf.

(** C7.  Whatever the registry entry, an event without a timestamp leaves
    no trace in the result of its [BatchInsert] function: the batch is the
    one the function returns for the input without that event, wherever the
    event stands in the sequence and whatever its payload and identifiers
    are.  In particular no column tuple comes from it. *)
Theorem absent_timestamp_contributes_nothing `{L : Libs} (et : EventType) (def : EventDef)
    (f : BatchInsertFunc) (before after : list TraceEvent) (ev : TraceEvent) :
  In (et, def) eventDefs -> BatchInsert def = Some f -> Timestamp ev = None ->
  f (before ++ ev :: after)%list = f (before ++ after)%list
  /\ eligible et ev = false.
Proof.
  intros Hin Hf Hts. split; [|unfold eligible; now rewrite Hts].
  registry_cases Hin Hf.
  1-10: unfold_flat;
    rewrite flat_loop_skip;
    [ reflexivity
    | eapply flat_kinds_no_timestamp; [cbn [In flat_kinds]; tauto | exact Hts] ].
  unfold peer_score_BatchInsert. rewrite !fold_left_app. cbn [fold_left].
  now rewrite (peer_score_step_no_timestamp _ ev Hts).
Qed.

Lemma absent_timestamp_contributes_nothing_witness :
  @join_BatchInsert Sample.libs
    [Sample.join_event Sample.id_bytes (Some Sample.ts);
     Sample.join_event Sample.id_bytes None]
  = @join_BatchInsert Sample.libs [Sample.join_event Sample.id_bytes (Some Sample.ts)]
  /\ @eligible Sample.libs EventTypeJoin (Sample.join_event Sample.id_bytes None) = false.
Proof.
  apply (@absent_timestamp_contributes_nothing Sample.libs EventTypeJoin
           {| Name := "join_event"; DDL := join_event_DDL;
              BatchInsert := Some (@join_BatchInsert Sample.libs) |}
           (@join_BatchInsert Sample.libs)
           [Sample.join_event Sample.id_bytes (Some Sample.ts)] []
           (Sample.join_event Sample.id_bytes None)).
  - cbn [In eventDefs]. do 6 right. left. reflexivity.
  - reflexivity.
  - reflexivity.
Defined.

Lemma peer_score_children_values (topics : list TopicScore) (values : list value) (c : Z) :
  exists more, fst (fold_left peer_score_child topics (values, c)) = (values ++ more)%list.
Proof.
  revert values c. induction topics as [|t topics IH]; intros values c.
  - exists []. simpl. now rewrite List.app_nil_r.
  - cbn [fold_left peer_score_child].
    destruct (IH (values ++ [ VString (TopicScore_Topic t);
                              VDuration (TopicScore_TimeInMesh t);
                              VFloat64 (TopicScore_FirstMessageDeliveries t);
                              VFloat64 (TopicScore_MeshMessageDeliveries t);
                              VFloat64 (TopicScore_InvalidMessageDeliveries t) ])%list
                 (GoInt.incr c)) as [more E].
    rewrite E, <- app_assoc. eauto.
Qed.

Lemma guess_encoding_decodes `{L : Libs} (raw : list Byte.byte) :
  decodes_after_base64 raw = true -> exists id, guess_encoding raw = Some id.
Proof.
  unfold decodes_after_base64, guess_encoding, decodes.
  destruct (DecodeString (string_of_list_byte raw)) as [decoded [e|]]; [discriminate|].
  destruct (IDFromBytes decoded) as [id [e|]]; [discriminate|]. eauto.
Qed.

(** What the PeerScore loop body does with an event it keeps: one more
    statement in the batch, with at least the parent values. *)
Lemma peer_score_step_eligible `{L : Libs} (b : Batch) (c : Z) (ev : TraceEvent) :
  eligible EventTypePeerScore ev = true ->
  exists q, fst (peer_score_step (b, c) ev) = (b ++ [q])%list /\ Arguments q <> [].
Proof.
  unfold eligible, on_payload, peer_score_step, decodes_with_fallback.
  destruct (Timestamp ev) as [ts|]; [|discriminate].
  destruct (PeerScore ev) as [sub|]; [|discriminate].
  intros H. apply andb_prop in H as [H1 H2].
  assert (E1 : exists id, (let '(peerID, err) := IDFromBytes (PeerID ev) in
                           match err with
                           | None => Some peerID
                           | Some _ => guess_encoding (PeerID ev)
                           end) = Some id).
  { unfold decodes in H1. destruct (IDFromBytes (PeerID ev)) as [id [e|]]; [|eauto].
    cbn [snd orb] in H1. now apply guess_encoding_decodes. }
  destruct E1 as [id1 E1].
  destruct (IDFromBytes (PeerID ev)) as [peerID err]. rewrite E1.
  assert (E2 : exists id, (let '(otherPeerID, err) := IDFromBytes (PeerScore_PeerID sub) in
                           match err with
                           | None => Some id1
                           | Some _ => guess_encoding (PeerScore_PeerID sub)
                           end) = Some id).
  { unfold decodes in H2. destruct (IDFromBytes (PeerScore_PeerID sub)) as [id [e|]]; [|eauto].
    cbn [snd orb] in H2. now apply guess_encoding_decodes. }
  destruct E2 as [id2 E2].
  destruct (IDFromBytes (PeerScore_PeerID sub)) as [otherPeerID err2]. rewrite E2.
  unfold peer_score_children.
  match goal with
  | |- context [fold_left peer_score_child ?t (?v, ?z)] =>
      destruct (peer_score_children_values t v z) as [more E];
      destruct (fold_left peer_score_child t (v, z)) as [values childRowCount]
  end.
  cbn [fst] in E. subst values.
  eexists. split; [reflexivity|]. cbn [Arguments]. discriminate.
Qed.



Example join_mapper_keeps_event_declared_as_leave :
  fst (@join_BatchInsert Sample.libs
         [with_Type EventTypeLeave (Sample.join_event Sample.id_bytes (Some Sample.ts))])
  = [ {| SQL := "INSERT INTO join_event(peer_id, timestamp, topic) VALUES ($1, $2, $3)";
         Arguments := [ VString "1u3A"; VTime (mkTime 1700000000 123456789);
                        VString "blocks" ] |} ].
Proof. vm_compute. reflexivity. Qed.

Lemma time_Unix_nanoseconds (ts : Z) :
  (unix_sec (time_Unix 0 ts) * 1000000000 + unix_nsec (time_Unix 0 ts) = ts
   /\ 0 <= unix_nsec (time_Unix 0 ts) < 1000000000)%Z.
Proof.
  unfold time_Unix.
  destruct ((ts <? 0) || (ts >=? 1000000000))%Z eqn:E.
  - pose proof (Z.quot_rem' ts 1000000000) as Hq.
    assert (Hr : (-1000000000 < Z.rem ts 1000000000 < 1000000000)%Z)
      by (pose proof (Z.rem_bound_abs ts 1000000000 ltac:(lia)); lia).
    destruct (ts - ts ÷ 1000000000 * 1000000000 <? 0)%Z eqn:En;
      [apply Z.ltb_lt in En | apply Z.ltb_ge in En]; cbn [unix_sec unix_nsec]; lia.
  - apply orb_false_elim in E as [E1 E2].
    apply Z.ltb_ge in E1. rewrite Z.geb_leb in E2. apply Z.leb_gt in E2.
    cbn [unix_sec unix_nsec]. lia.
Qed.

Lemma flat_kind_statement `{L : Libs} (et : EventType) (table : string) (cols : list string)
    (body : TraceEvent -> option (list value)) (evs : list TraceEvent) :
  In (et, (table, cols, body)) flat_kinds ->
  (6 * Z.of_nat (List.length evs) <= GoInt.max_int)%Z ->
  flat_BatchInsert table cols body evs
  = ([{| SQL := buildBulkInsert table cols (Z.of_nat (List.length (filter (eligible et) evs)));
         Arguments := List.concat (kept_rows body evs) |}], None)
  /\ buildBulkInsert table cols (Z.of_nat (List.length (filter (eligible et) evs)))
     = insert_header table cols
         ++ strings.Join (flat_tuples (List.length cols)
                                      (List.length (filter (eligible et) evs))) ","
  /\ List.length (List.concat (kept_rows body evs))
     = (List.length (filter (eligible et) evs) * List.length cols)%nat.
Proof.
  intros Hk Hmax.
  assert (HR : List.length (kept_rows body evs) = List.length (filter (eligible et) evs))
    by (apply kept_rows_filter; intros ev; now apply (flat_kinds_eligible et table cols)).
  pose proof (kept_rows_length body evs) as Hle.
  pose proof (flat_kinds_cols _ _ _ _ Hk) as Hc.
  rewrite <- HR. split; [|split].
  - apply flat_BatchInsert_closed. lia.
  - apply buildBulkInsert_closed.
    assert (List.length (kept_rows body evs) * List.length cols
            <= List.length evs * 6)%nat by (apply Nat.mul_le_mono; lia).
    lia.
  - apply concat_rows_length, kept_rows_Forall.
    intros ev row. now apply (flat_kinds_row_length et table cols).
Qed.

(** C8.  A PublishMessage event with a timestamp [ts], a payload and a peer
    identifier that decodes to [peerID] maps to one statement with one tuple,
    whose values are, in this order, the string of [peerID], the time
    [time.Unix(0, ts)], the message identifier as a string and the topic,
    with the empty string for an absent topic.  The time is [ts] nanoseconds
    after the epoch.  For every input sequence (short enough for its values
    to be counted by an [int]) with [R] kept events, the values passed with
    the statement are [4 * R], and the statement's parameters are
    [$1, ..., $(4*R)]. *)
Theorem publish_message_tuple `{L : Libs} (ev : TraceEvent) (ts : Z)
    (sub : TraceEventPublishMessage) (peerID : peer_ID) (evs : list TraceEvent) :
  Timestamp ev = Some ts -> PublishMessage ev = Some sub ->
  IDFromBytes (PeerID ev) = (peerID, None) ->
  (6 * Z.of_nat (List.length evs) <= GoInt.max_int)%Z ->
  publish_message_BatchInsert [ev]
  = ([{| SQL := "INSERT INTO publish_message_event(peer_id, timestamp, message_id, topic) VALUES ($1, $2, $3, $4)";
         Arguments := [ VString (IDString peerID);
                        VTime (time_Unix 0 ts);
                        VString (string_of_list_byte (PublishMessage_MessageID sub));
                        VString (match PublishMessage_Topic sub with
                                 | Some topic => topic
                                 | None => ""
                                 end) ] |}], None)
  /\ (unix_sec (time_Unix 0 ts) * 1000000000 + unix_nsec (time_Unix 0 ts) = ts
      /\ 0 <= unix_nsec (time_Unix 0 ts) < 1000000000)%Z
  /\ exists q,
       publish_message_BatchInsert evs = ([q], None)
       /\ List.length (Arguments q)
          = (List.length (filter (eligible EventTypePublishMessage) evs) * 4)%nat
       /\ sql_params (SQL q)
          = map Z.of_nat
              (seq 1 (List.length (filter (eligible EventTypePublishMessage) evs) * 4)).
Proof.
  intros Hts Hsub Hid Hmax. split; [|split].
  - unfold publish_message_BatchInsert, flat_BatchInsert, flat_loop.
    cbn [fold_left flat_step]. unfold publish_message_body.
    rewrite Hts, Hsub, Hid. reflexivity.
  - apply time_Unix_nanoseconds.
  - destruct (flat_kind_statement EventTypePublishMessage "publish_message_event"
                publish_message_cols publish_message_body evs) as (E1 & E2 & E3);
      [cbn [In flat_kinds]; tauto | exact Hmax |].
    eexists. split; [exact E1|]. cbn [Arguments SQL]. split; [exact E3|].
    rewrite E2, sql_params_dollar_free by reflexivity.
    rewrite <- (string_app_nil_r (strings.Join _ ",")), sql_params_flat_tuples.
    cbn [sql_params]. now rewrite List.app_nil_r, numbers_after_0.
Qed.

Lemma publish_message_tuple_witness :
  @publish_message_BatchInsert Sample.libs [Sample.publish_event]
  = ([{| SQL := "INSERT INTO publish_message_event(peer_id, timestamp, message_id, topic) VALUES ($1, $2, $3, $4)";
         Arguments := [ VString (@IDString Sample.libs (string_of_list_byte Sample.id_bytes));
                        VTime (time_Unix 0 Sample.ts);
                        VString (string_of_list_byte
                                   (PublishMessage_MessageID Sample.publish_payload));
                        VString (match PublishMessage_Topic Sample.publish_payload with
                                 | Some topic => topic
                                 | None => ""
                                 end) ] |}], None)
  /\ (unix_sec (time_Unix 0 Sample.ts) * 1000000000 + unix_nsec (time_Unix 0 Sample.ts)
      = Sample.ts
      /\ 0 <= unix_nsec (time_Unix 0 Sample.ts) < 1000000000)%Z
  /\ exists q,
       @publish_message_BatchInsert Sample.libs
         [Sample.publish_event; Sample.join_event Sample.id_bytes (Some Sample.ts);
          Sample.publish_event]
       = ([q], None)
       /\ List.length (Arguments q)
          = (List.length
               (filter (@eligible Sample.libs EventTypePublishMessage)
                  [Sample.publish_event; Sample.join_event Sample.id_bytes (Some Sample.ts);
                   Sample.publish_event]) * 4)%nat
       /\ sql_params (SQL q)
          = map Z.of_nat
              (seq 1 (List.length
                        (filter (@eligible Sample.libs EventTypePublishMessage)
                           [Sample.publish_event;
                            Sample.join_event Sample.id_bytes (Some Sample.ts);
                            Sample.publish_event]) * 4)).
Proof.
  apply (@publish_message_tuple Sample.libs Sample.publish_event Sample.ts
           Sample.publish_payload (string_of_list_byte Sample.id_bytes)
           [Sample.publish_event; Sample.join_event Sample.id_bytes (Some Sample.ts);
            Sample.publish_event]).
  - reflexivity.
  - reflexivity.
  - reflexivity.
  - unfold GoInt.max_int. simpl. lia.
Defined.

Example publish_message_two_of_three :
  fst (@publish_message_BatchInsert Sample.libs
         [Sample.publish_event; Sample.join_event Sample.id_bytes (Some Sample.ts);
          Sample.publish_event])
  = [ {| SQL := "INSERT INTO publish_message_event(peer_id, timestamp, message_id, topic) VALUES ($1, $2, $3, $4),($5, $6, $7, $8)";
         Arguments := [ VString "1u3A"; VTime (mkTime 1700000000 123456789);
                        VString "msg-1"; VString "blocks";
                        VString "1u3A"; VTime (mkTime 1700000000 123456789);
                        VString "msg-1"; VString "blocks" ] |} ].
Proof. vm_compute. reflexivity. Qed.

(** C4, as the code has it.  A flat [BatchInsert] function always queues
    exactly one statement, built by [buildBulkInsert] with [rowCount] equal to
    the number [R] of events it keeps: the statement has [R] value tuples and
    [R * K] values.  It has at least one tuple exactly when at least one event
    of the input is kept. *)
Theorem flat_BatchInsert_tuple_count `{L : Libs} (et : EventType) (def : EventDef)
    (f : BatchInsertFunc) (evs : list TraceEvent) :
  In (et, def) eventDefs -> et <> EventTypePeerScore -> BatchInsert def = Some f ->
  (6 * Z.of_nat (List.length evs) <= GoInt.max_int)%Z ->
  exists (cols : list string) (values : list value),
    f evs
    = ([{| SQL := buildBulkInsert (Name def) cols
                    (Z.of_nat (List.length (filter (eligible et) evs)));
           Arguments := values |}], None)
    /\ buildBulkInsert (Name def) cols (Z.of_nat (List.length (filter (eligible et) evs)))
       = insert_header (Name def) cols
           ++ strings.Join (flat_tuples (List.length cols)
                                        (List.length (filter (eligible et) evs))) ","
    /\ List.length (flat_tuples (List.length cols) (List.length (filter (eligible et) evs)))
       = List.length (filter (eligible et) evs)
    /\ count_char "("
         (strings.Join (flat_tuples (List.length cols)
                                    (List.length (filter (eligible et) evs))) ",")
       = List.length (filter (eligible et) evs)
    /\ List.length values = (List.length (filter (eligible et) evs) * List.length cols)%nat
    /\ ((1 <= List.length (filter (eligible et) evs))%nat
        <-> exists ev, In ev evs /\ eligible et ev = true).
Proof.
  intros Hin Hne Hf Hmax.
  destruct (eventDefs_flat et def f Hin Hne Hf) as (cols & body & Hk & ->).
  destruct (flat_kind_statement et (Name def) cols body evs Hk Hmax) as (E1 & E2 & E3).
  exists cols, (List.concat (kept_rows body evs)).
  repeat split; try assumption.
  - apply flat_tuples_length.
  - apply count_open_flat_tuples.
  - intros HR. destruct (filter (eligible et) evs) as [|ev kept] eqn:E; [simpl in HR; lia|].
    exists ev. apply filter_In. rewrite E. now left.
  - intros (ev & Hev & Hel).
    assert (Hf' : In ev (filter (eligible et) evs)) by (apply filter_In; now split).
    destruct (filter (eligible et) evs); [contradiction | simpl; lia].
Qed.

Lemma flat_BatchInsert_tuple_count_witness :
  exists (cols : list string) (values : list value),
    @join_BatchInsert Sample.libs
      [Sample.join_event Sample.id_bytes (Some Sample.ts);
       Sample.join_event Sample.id_bytes None]
    = ([{| SQL := buildBulkInsert "join_event" cols
                    (Z.of_nat (List.length
                       (filter (@eligible Sample.libs EventTypeJoin)
                          [Sample.join_event Sample.id_bytes (Some Sample.ts);
                           Sample.join_event Sample.id_bytes None])));
           Arguments := values |}], None)
    /\ List.length values = (1 * List.length cols)%nat.
Proof.
  destruct (@flat_BatchInsert_tuple_count Sample.libs EventTypeJoin
              {| Name := "join_event"; DDL := join_event_DDL;
                 BatchInsert := Some (@join_BatchInsert Sample.libs) |}
              (@join_BatchInsert Sample.libs)
              [Sample.join_event Sample.id_bytes (Some Sample.ts);
               Sample.join_event Sample.id_bytes None])
    as (cols & values & E1 & _ & _ & _ & E5 & _).
  - cbn [In eventDefs]. do 6 right. left. reflexivity.
  - discriminate.
  - reflexivity.
  - unfold GoInt.max_int. simpl. lia.
  - exists cols, values. split; [exact E1 | exact E5].
Defined.

(** C4 as the claim has it fails: on the empty sequence, and on a sequence
    whose every event is dropped, the flat mappers call [buildBulkInsert] with
    [rowCount = 0] and queue the statement, which ends after [VALUES] and has
    no value tuple. *)
Lemma flat_BatchInsert_queues_statement_without_tuples :
  @publish_message_BatchInsert Sample.libs []
  = ([{| SQL := buildBulkInsert "publish_message_event" publish_message_cols 0;
         Arguments := [] |}], None)
  /\ buildBulkInsert "publish_message_event" publish_message_cols 0
     = "INSERT INTO publish_message_event(peer_id, timestamp, message_id, topic) VALUES "
  /\ @join_BatchInsert Sample.libs [Sample.join_event Sample.id_bytes None]
     = ([{| SQL := "INSERT INTO join_event(peer_id, timestamp, topic) VALUES ";
            Arguments := [] |}], None)
  /\ sql_params (buildBulkInsert "publish_message_event" publish_message_cols 0) = []
  /\ count_char "(" (strings.Join (flat_tuples 4 0) ",") = 0%nat.
Proof. repeat split. Qed.

(** ** The base64 fallback of the PeerScore mapper *)

(** C6, as the code has it.  Take an event with a timestamp whose envelope
    PeerID fails direct decoding.  The PeerScore mapper keeps it and queues a
    statement for it when the PeerID decodes after the base64 fallback and
    the payload's own identifier decodes as well, directly or after the same
    fallback; when that identifier decodes directly, the first value of the
    statement is the string of the fallback-decoded PeerID.  Every other
    mapper drops the event: no row, no value. *)
Theorem base64_fallback_only_for_peer_score `{L : Libs} (ev : TraceEvent) (ts : Z) :
  Timestamp ev = Some ts -> decodes (PeerID ev) = false ->
  (forall sub decoded peerID,
      PeerScore ev = Some sub ->
      DecodeString (string_of_list_byte (PeerID ev)) = (decoded, None) ->
      IDFromBytes decoded = (peerID, None) ->
      decodes_with_fallback (PeerScore_PeerID sub) = true ->
      exists q,
        fst (peer_score_BatchInsert [ev]) = [q]
        /\ Arguments q <> []
        /\ (decodes (PeerScore_PeerID sub) = true ->
            hd_error (Arguments q) = Some (VString (IDString peerID))))
  /\ (forall et def f,
        In (et, def) eventDefs -> et <> EventTypePeerScore -> BatchInsert def = Some f ->
        eligible et ev = false
        /\ exists cols,
             f [ev] = ([{| SQL := buildBulkInsert (Name def) cols 0; Arguments := [] |}], None)).
Proof.
  intros Hts Hbad. split.
  - intros sub decoded peerID Hsub Hdec Hid Hother.
    assert (Hel : eligible EventTypePeerScore ev = true).
    { unfold eligible, on_payload. rewrite Hts, Hsub, Hother.
      unfold decodes_with_fallback, decodes_after_base64, decodes.
      rewrite Hdec, Hid. cbn [snd]. now rewrite orb_true_r. }
    destruct (peer_score_step_eligible [] 0 ev Hel) as (q & E & Hq).
    exists q. unfold peer_score_BatchInsert. cbn [fold_left].
    destruct (peer_score_step _ _) as [b c] eqn:Estep. cbn [fst] in *. subst b.
    split; [reflexivity|]. split; [exact Hq|].
    intros Hdirect. revert Estep.
    unfold peer_score_step, guess_encoding. rewrite Hts, Hsub.
    unfold decodes in Hbad, Hdirect.
    destruct (IDFromBytes (PeerID ev)) as [id0 [e|]]; [|discriminate].
    rewrite Hdec, Hid.
    destruct (IDFromBytes (PeerScore_PeerID sub)) as [other [e'|]]; [discriminate|].
    unfold peer_score_children.
    match goal with
    | |- context [fold_left peer_score_child ?t (?v, ?z)] =>
        destruct (peer_score_children_values t v z) as [more Em];
        destruct (fold_left peer_score_child t (v, z)) as [values childRowCount]
    end.
    cbn [fst] in Em. subst values.
    intros Estep. inversion Estep. reflexivity.
  - intros et def f Hin Hne Hf.
    destruct (eventDefs_flat et def f Hin Hne Hf) as (cols & body & Hk & ->).
    assert (Hel : eligible et ev = false).
    { unfold eligible. rewrite Hts. unfold on_payload. rewrite Hbad.
      destruct et; try (exfalso; apply Hne; reflexivity);
        match goal with |- match ?p with _ => _ end = _ => now destruct p end. }
    split; [exact Hel|]. exists cols.
    unfold flat_BatchInsert, flat_loop. cbn [fold_left flat_step].
    rewrite (flat_kinds_eligible et (Name def) cols body ev Hk) in Hel.
    destruct (body ev); [discriminate | reflexivity].
Qed.

Lemma base64_fallback_only_for_peer_score_witness :
  (forall sub decoded peerID,
      PeerScore (Sample.peer_score_event Sample.id_base64 Sample.other_bytes
                   [Sample.topic_score]) = Some sub ->
      @DecodeString Sample.libs (string_of_list_byte Sample.id_base64) = (decoded, None) ->
      @IDFromBytes Sample.libs decoded = (peerID, None) ->
      @decodes_with_fallback Sample.libs (PeerScore_PeerID sub) = true ->
      exists q,
        fst (@peer_score_BatchInsert Sample.libs
               [Sample.peer_score_event Sample.id_base64 Sample.other_bytes
                  [Sample.topic_score]]) = [q]
        /\ Arguments q <> []
        /\ (@decodes Sample.libs (PeerScore_PeerID sub) = true ->
            hd_error (Arguments q) = Some (VString (@IDString Sample.libs peerID))))
  /\ (forall et def f,
        In (et, def) (@eventDefs Sample.libs) -> et <> EventTypePeerScore ->
        BatchInsert def = Some f ->
        @eligible Sample.libs et
          (Sample.peer_score_event Sample.id_base64 Sample.other_bytes [Sample.topic_score])
        = false
        /\ exists cols,
             f [Sample.peer_score_event Sample.id_base64 Sample.other_bytes
                  [Sample.topic_score]]
             = ([{| SQL := buildBulkInsert (Name def) cols 0; Arguments := [] |}], None)).
Proof.
  apply (@base64_fallback_only_for_peer_score Sample.libs
           (Sample.peer_score_event Sample.id_base64 Sample.other_bytes [Sample.topic_score])
           Sample.ts).
  - reflexivity.
  - vm_compute. reflexivity.
Defined.

Example peer_score_envelope_in_base64 :
  fst (@peer_score_BatchInsert Sample.libs
         [Sample.peer_score_event Sample.id_base64 Sample.other_bytes [Sample.topic_score]])
  = [ {| SQL := "WITH new_peer_score_event AS (INSERT INTO peer_score_event(peer_id, timestamp, other_peer_id, app_specific_score, ip_colocation_factor, behaviour_penalty) VALUES ($1, $2, $3, $4, $5, $6) RETURNING id) INSERT INTO peer_score_topic(peer_score_event_id, topic, time_in_mesh, first_message_deliveries, mesh_message_deliveries, invalid_message_deliveries) VALUES ((select id from new_peer_score_event),$7,$8,$9,$10,$11)";
         Arguments := [ VString "1u3A"; VTime (mkTime 1700000000 123456789);
                        VString "15TJUr";
                        VFloat64 4607182418800017408%Z; VFloat64 0%Z; VFloat64 0%Z;
                        VString "blocks"; VDuration 60000000000%Z;
                        VFloat64 4607182418800017408%Z; VFloat64 4611686018427387904%Z;
                        VFloat64 0%Z ] |} ]
  /\ fst (@join_BatchInsert Sample.libs
            [Sample.join_event Sample.id_base64 (Some Sample.ts)])
     = [ {| SQL := "INSERT INTO join_event(peer_id, timestamp, topic) VALUES ";
            Arguments := [] |} ].
Proof. vm_compute. split; reflexivity. Qed.

(** C6 as the claim has it fails: a PeerScore event with a timestamp, its
    payload set and an envelope PeerID that decodes after the base64
    fallback is still dropped when the payload's own identifier decodes
    neither way. *)
Lemma peer_score_fallback_needs_other_identifier :
  Timestamp (Sample.peer_score_event Sample.id_base64 [Byte.xff] []) = Some Sample.ts
  /\ PeerScore (Sample.peer_score_event Sample.id_base64 [Byte.xff] []) <> None
  /\ @decodes Sample.libs Sample.id_base64 = false
  /\ @decodes_after_base64 Sample.libs Sample.id_base64 = true
  /\ @peer_score_BatchInsert Sample.libs
       [Sample.peer_score_event Sample.id_base64 [Byte.xff] []] = ([], None).
Proof. vm_compute. repeat split. discriminate. Qed.

(** C3: the code at the failing input.  The envelope PeerID decodes
    directly; the payload's identifier is base64 text and decodes after the
    fallback.  Line 755 assigns the fallback's result to [peerID], not to
    [otherPeerID]: the [peer_id] column holds the string of the payload's
    identifier, and [other_peer_id] holds the string of the identifier that
    the failed direct decoding returned, which is empty. *)
Lemma peer_score_fallback_overwrites_peer_id :
  fst (@peer_score_BatchInsert Sample.libs
         [Sample.peer_score_event Sample.id_bytes Sample.other_base64 []])
  = [ {| SQL := "INSERT INTO peer_score_event(peer_id, timestamp, other_peer_id, app_specific_score, ip_colocation_factor, behaviour_penalty) VALUES ($1, $2, $3, $4, $5, $6)";
         Arguments := [ VString "15TJUr"; VTime (mkTime 1700000000 123456789);
                        VString "";
                        VFloat64 4607182418800017408%Z; VFloat64 0%Z; VFloat64 0%Z ] |} ]
  /\ @IDString Sample.libs (fst (@IDFromBytes Sample.libs Sample.id_bytes)) = "1u3A"
  /\ @IDString Sample.libs (fst (@IDFromBytes Sample.libs Sample.other_bytes)) = "15TJUr"
  /\ @DecodeString Sample.libs (string_of_list_byte Sample.other_base64)
     = (Sample.other_bytes, None).
Proof. vm_compute. repeat split. Qed.

(** The same for every library and every event: when the payload's
    identifier needs the fallback, the first value is its string and the
    third is the string of what the failed decoding returned. *)
Lemma peer_score_other_fallback_columns `{L : Libs} (ev : TraceEvent) (ts : Z)
    (sub : TraceEventPeerScore) (peerID failed otherID : peer_ID) (e : error)
    (decoded : list Byte.byte) :
  Timestamp ev = Some ts -> PeerScore ev = Some sub ->
  IDFromBytes (PeerID ev) = (peerID, None) ->
  IDFromBytes (PeerScore_PeerID sub) = (failed, Some e) ->
  DecodeString (string_of_list_byte (PeerScore_PeerID sub)) = (decoded, None) ->
  IDFromBytes decoded = (otherID, None) ->
  exists q more,
    fst (peer_score_BatchInsert [ev]) = [q]
    /\ Arguments q
       = ([ VString (IDString otherID); VTime (time_Unix 0 ts); VString (IDString failed);
            VFloat64 (PeerScore_AppSpecificScore sub);
            VFloat64 (PeerScore_IPColocationFactor sub);
            VFloat64 (PeerScore_BehaviourPenalty sub) ] ++ more)%list.
Proof.
  intros Hts Hsub Hid Hfail Hdec Hother.
  unfold peer_score_BatchInsert. cbn [fold_left].
  unfold peer_score_step, guess_encoding.
  rewrite Hts, Hsub, Hid, Hfail, Hdec, Hother.
  unfold peer_score_children.
  match goal with
  | |- context [fold_left peer_score_child ?t (?v, ?z)] =>
      destruct (peer_score_children_values t v z) as [more Em];
      destruct (fold_left peer_score_child t (v, z)) as [values childRowCount]
  end.
  cbn [fst] in Em. subst values.
  eexists. exists more. split; reflexivity.
Qed.

Example peer_score_three_topics :
  fst (@peer_score_BatchInsert Sample.libs
         [Sample.peer_score_event Sample.id_bytes Sample.other_bytes
            [Sample.topic_score; Sample.topic_score; Sample.topic_score]])
  = [ {| SQL := buildBulkInsertParentChild "peer_score_event" peer_score_parentCols
                  "peer_score_topic" peer_score_childCols 3;
         Arguments := [ VString "1u3A"; VTime (mkTime 1700000000 123456789);
                        VString "15TJUr";
                        VFloat64 4607182418800017408%Z; VFloat64 0%Z; VFloat64 0%Z;
                        VString "blocks"; VDuration 60000000000%Z;
                        VFloat64 4607182418800017408%Z; VFloat64 4611686018427387904%Z;
                        VFloat64 0%Z;
                        VString "blocks"; VDuration 60000000000%Z;
                        VFloat64 4607182418800017408%Z; VFloat64 4611686018427387904%Z;
                        VFloat64 0%Z;
                        VString "blocks"; VDuration 60000000000%Z;
                        VFloat64 4607182418800017408%Z; VFloat64 4611686018427387904%Z;
                        VFloat64 0%Z ] |} ]
  /\ sql_params (buildBulkInsertParentChild "peer_score_event" peer_score_parentCols
                   "peer_score_topic" peer_score_childCols 3)
     = map Z.of_nat (seq 1 21).
Proof. vm_compute. split; reflexivity. Qed.

(** ** The schema ensurer *)

Section SchemaFacts.

Context `{L : Libs}.

Lemma eventDefs_have_ddl : forallb has_ddl eventDefs = true.
Proof. vm_compute. reflexivity. Qed.

Lemma has_ddl_spec (et : EventType) (def : EventDef) :
  has_ddl (et, def) = true ->
  (DDL def =? "")%string = false /\ exists f, BatchInsert def = Some f.
Proof.
  unfold has_ddl. cbn [snd]. intros H. apply andb_prop in H as [H1 H2].
  split; [now apply negb_true_iff|].
  destruct (BatchInsert def) as [f|]; [eauto | discriminate].
Qed.

Lemma exec_ddl_loop_ok (srv : Server) (entries : list (EventType * EventDef))
    (durable0 : list string) (done : list string) (calls0 : list dbcall) :
  forallb has_ddl entries = true ->
  execs_ok srv done (map ddl_of entries) ->
  exec_ddl_loop srv entries (mkConn durable0 (Some done) calls0)
  = (mkConn durable0 (Some (done ++ map ddl_of entries)%list)
            (calls0 ++ map CallExec (map ddl_of entries))%list, None).
Proof.
  revert done calls0. induction entries as [|[et def] entries IH]; intros done calls0 Hddl Hok.
  - simpl. now rewrite !List.app_nil_r.
  - cbn [forallb] in Hddl. apply andb_prop in Hddl as [Hd Hddl].
    apply has_ddl_spec in Hd as [Hne [f Hf]].
    cbn [map execs_ok] in Hok. destruct Hok as [Hexec Hok].
    unfold ddl_of in Hexec at 1. cbn [snd] in Hexec.
    cbn [exec_ddl_loop]. rewrite Hne, Hf.
    unfold tx_Exec. cbn [open_tx calls durable]. rewrite Hexec.
    rewrite IH by assumption.
    cbn [map]. unfold ddl_of at 3 5. cbn [snd].
    now rewrite <- !app_assoc.
Qed.

Lemma exec_ddl_loop_fail (srv : Server) (pre post : list (EventType * EventDef))
    (et : EventType) (def : EventDef) (e : error)
    (durable0 : list string) (done : list string) (calls0 : list dbcall) :
  forallb has_ddl (pre ++ (et, def) :: post) = true ->
  execs_ok srv done (map ddl_of pre) ->
  exec_error srv (done ++ map ddl_of pre) (DDL def) = Some e ->
  exec_ddl_loop srv (pre ++ (et, def) :: post) (mkConn durable0 (Some done) calls0)
  = (mkConn durable0 (Some (done ++ map ddl_of pre)%list)
            (calls0 ++ map CallExec (map ddl_of pre ++ [DDL def]))%list,
     Some (Errorf_w ("exec ddl for " ++ Key et) e)).
Proof.
  revert done calls0. induction pre as [|[et' def'] pre IH]; intros done calls0 Hddl Hok Hfail.
  - cbn [app forallb] in Hddl. apply andb_prop in Hddl as [Hd _].
    apply has_ddl_spec in Hd as [Hne [f Hf]].
    cbn [app map] in *. rewrite List.app_nil_r in *.
    cbn [exec_ddl_loop]. rewrite Hne, Hf.
    unfold tx_Exec. cbn [open_tx calls durable]. now rewrite Hfail.
  - cbn [app forallb] in Hddl. apply andb_prop in Hddl as [Hd Hddl].
    apply has_ddl_spec in Hd as [Hne [f Hf]].
    cbn [map execs_ok] in Hok. destruct Hok as [Hexec Hok].
    unfold ddl_of in Hexec at 1. cbn [snd] in Hexec.
    cbn [app exec_ddl_loop]. rewrite Hne, Hf.
    unfold tx_Exec. cbn [open_tx calls durable]. rewrite Hexec.
    rewrite IH; try assumption.
    + cbn [map app]. unfold ddl_of at 2 4. cbn [snd]. now rewrite <- !app_assoc.
    + cbn [map] in Hfail. unfold ddl_of in Hfail at 1. cbn [snd] in Hfail.
      now rewrite <- app_assoc.
Qed.

Lemma execs_cases (srv : Server) (entries : list (EventType * EventDef)) (done : list string) :
  execs_ok srv done (map ddl_of entries)
  \/ exists pre et def post e,
       entries = (pre ++ (et, def) :: post)%list
       /\ execs_ok srv done (map ddl_of pre)
       /\ exec_error srv (done ++ map ddl_of pre) (DDL def) = Some e.
Proof.
  revert done. induction entries as [|[et def] entries IH]; intros done; [now left|].
  destruct (exec_error srv done (DDL def)) as [e|] eqn:E.
  - right. exists [], et, def, entries, e. cbn [app map execs_ok].
    now rewrite List.app_nil_r.
  - destruct (IH (done ++ [DDL def])%list) as [Hok | (pre & et' & def' & post & e & -> & Hok & Hfail)].
    + left. cbn [map execs_ok]. now split.
    + right. exists ((et, def) :: pre), et', def', post, e.
      cbn [app map execs_ok]. unfold ddl_of at 1 3. cbn [snd].
      rewrite <- app_assoc in Hfail. now repeat split.
Qed.

End SchemaFacts.

(** C9.  Let the iteration over the registry visit its entries in any order
    and let [Begin] succeed.  Then [ensureDatabaseSchema]
    - opens one transaction and, on every path, ends with the deferred
      [Rollback], after which no transaction is open;
    - commits only when every DDL statement succeeded, and makes anything
      durable only when it returns no error;
    - when all statements and the commit succeed, has executed the DDL of
      every entry, in the order visited, and made exactly those durable;
    - when a statement fails, returns an error that wraps the cause, calls no
      [Commit] and leaves the durable state as it was;
    - when the commit fails, returns an error that wraps the cause and leaves
      the durable state as it was.
    Every entry of the registry has a non-empty DDL (and a [BatchInsert]
    function), so none is skipped. *)
Theorem ensureDatabaseSchema_transactional `{L : Libs} (srv : Server)
    (entries : list (EventType * EventDef)) (conn : Conn) :
  Permutation entries eventDefs -> begin_error srv = None ->
  (open_tx (fst (ensureDatabaseSchema srv entries conn)) = None
   /\ exists mid,
        calls (fst (ensureDatabaseSchema srv entries conn))
        = (calls conn ++ [CallBegin] ++ mid ++ [CallRollback])%list
        /\ ~ In CallBegin mid
        /\ (In CallCommit mid -> execs_ok srv [] (map ddl_of entries))
        /\ (durable (fst (ensureDatabaseSchema srv entries conn)) <> durable conn ->
            snd (ensureDatabaseSchema srv entries conn) = None))
  /\ (execs_ok srv [] (map ddl_of entries) ->
      commit_error srv (map ddl_of entries) = None ->
      ensureDatabaseSchema srv entries conn
      = (mkConn (durable conn ++ map ddl_of entries)%list None
                (calls conn ++ [CallBegin] ++ map CallExec (map ddl_of entries)
                   ++ [CallCommit; CallRollback])%list,
         None))
  /\ (forall pre et def post e,
        entries = (pre ++ (et, def) :: post)%list ->
        execs_ok srv [] (map ddl_of pre) ->
        exec_error srv (map ddl_of pre) (DDL def) = Some e ->
        ensureDatabaseSchema srv entries conn
        = (mkConn (durable conn) None
                  (calls conn ++ [CallBegin] ++ map CallExec (map ddl_of pre ++ [DDL def])
                     ++ [CallRollback])%list,
           Some (Errorf_w ("exec ddl for " ++ Key et) e))
        /\ Unwrap (Errorf_w ("exec ddl for " ++ Key et) e) = Some e)
  /\ (forall e,
        execs_ok srv [] (map ddl_of entries) ->
        commit_error srv (map ddl_of entries) = Some e ->
        ensureDatabaseSchema srv entries conn
        = (mkConn (durable conn) None
                  (calls conn ++ [CallBegin] ++ map CallExec (map ddl_of entries)
                     ++ [CallCommit; CallRollback])%list,
           Some (Errorf_w "commit transaction" e))
        /\ Unwrap (Errorf_w "commit transaction" e) = Some e)
  /\ (Permutation (map ddl_of entries) (map ddl_of eventDefs)
      /\ Forall (fun sql => sql <> "") (map ddl_of entries)).
Proof.
  intros Hperm Hbegin.
  assert (Hddl : forallb has_ddl entries = true).
  { apply forallb_forall. intros x Hx.
    apply (proj1 (forallb_forall has_ddl eventDefs) eventDefs_have_ddl).
    now apply (Permutation_in _ Hperm). }
  assert (Hok : execs_ok srv [] (map ddl_of entries) ->
                forall ce, commit_error srv (map ddl_of entries) = ce ->
                ensureDatabaseSchema srv entries conn
                = (mkConn (match ce with
                           | None => (durable conn ++ map ddl_of entries)%list
                           | Some _ => durable conn
                           end) None
                          (calls conn ++ [CallBegin] ++ map CallExec (map ddl_of entries)
                             ++ [CallCommit; CallRollback])%list,
                   match ce with
                   | None => None
                   | Some e => Some (Errorf_w "commit transaction" e)
                   end)).
  { intros Hexecs ce Hce.
    unfold ensureDatabaseSchema, conn_Begin. rewrite Hbegin.
    unfold ensure_after_begin. rewrite exec_ddl_loop_ok by assumption.
    unfold tx_Commit. cbn [open_tx calls durable app]. rewrite Hce.
    destruct ce; unfold tx_Rollback; cbn [open_tx calls durable];
      now rewrite <- !app_assoc. }
  assert (Hfail : forall pre et def post e,
             entries = (pre ++ (et, def) :: post)%list ->
             execs_ok srv [] (map ddl_of pre) ->
             exec_error srv (map ddl_of pre) (DDL def) = Some e ->
             ensureDatabaseSchema srv entries conn
             = (mkConn (durable conn) None
                       (calls conn ++ [CallBegin] ++ map CallExec (map ddl_of pre ++ [DDL def])
                          ++ [CallRollback])%list,
                Some (Errorf_w ("exec ddl for " ++ Key et) e))).
  { intros pre et def post e -> Hexecs He.
    unfold ensureDatabaseSchema, conn_Begin. rewrite Hbegin.
    unfold ensure_after_begin. rewrite exec_ddl_loop_fail with (e := e) by assumption.
    unfold tx_Rollback. cbn [open_tx calls durable app]. now rewrite <- !app_assoc. }
  split; [|split; [|split; [|split]]].
  - destruct (execs_cases srv entries []) as [Hexecs | (pre & et & def & post & e & E & Hexecs & He)].
    + rewrite (Hok Hexecs _ eq_refl). cbn [fst snd open_tx calls durable].
      split; [reflexivity|].
      exists (map CallExec (map ddl_of entries) ++ [CallCommit])%list.
      split; [now rewrite <- !app_assoc|]. split; [|split].
      * intros Hin. apply in_app_or in Hin as [Hin|[Hin|[]]]; [|discriminate].
        apply in_map_iff in Hin as (sql & Hsql & _). discriminate.
      * intros _. exact Hexecs.
      * destruct (commit_error srv (map ddl_of entries)); [intros H; now contradiction H | reflexivity].
    + cbn [app] in He. rewrite (Hfail _ _ _ _ _ E Hexecs He). cbn [fst snd open_tx calls durable].
      split; [reflexivity|].
      exists (map CallExec (map ddl_of pre ++ [DDL def])). split; [reflexivity|].
      split; [|split].
      * intros Hin. apply in_map_iff in Hin as (sql & Hsql & _). discriminate.
      * intros Hin. apply in_map_iff in Hin as (sql & Hsql & _). discriminate.
      * intros H. now contradiction H.
  - intros Hexecs Hce. exact (Hok Hexecs None Hce).
  - intros pre et def post e E Hexecs He. split; [now apply (Hfail pre et def post e)|reflexivity].
  - intros e Hexecs Hce. split; [exact (Hok Hexecs (Some e) Hce)|reflexivity].
  - split; [now apply Permutation_map|].
    apply Forall_forall. intros sql Hsql.
    apply in_map_iff in Hsql as ([et def] & <- & Hin).
    apply (proj1 (forallb_forall has_ddl entries) Hddl) in Hin.
    apply has_ddl_spec in Hin as [Hne _]. unfold ddl_of. cbn [snd].
    now apply String.eqb_neq.
Qed.

Lemma ensureDatabaseSchema_transactional_witness :
  @ensureDatabaseSchema Sample.libs Sample.third_statement_fails (@eventDefs Sample.libs)
    (mkConn [] None [])
  = (mkConn [] None
       [CallBegin; CallExec publish_message_event_DDL; CallExec reject_message_event_DDL;
        CallExec duplicate_message_event_DDL; CallRollback],
     Some (wrapError "exec ddl for duplicate_message: permission denied"
                     (errorString "permission denied")))
  /\ @ensureDatabaseSchema Sample.libs Sample.healthy (@eventDefs Sample.libs)
       (mkConn [] None [])
     = (mkConn (map ddl_of (@eventDefs Sample.libs)) None
          ([CallBegin] ++ map CallExec (map ddl_of (@eventDefs Sample.libs))
             ++ [CallCommit; CallRollback])%list,
        None).
Proof.
  split.
  - destruct (@ensureDatabaseSchema_transactional Sample.libs Sample.third_statement_fails
                (@eventDefs Sample.libs) (mkConn [] None []))
      as (_ & _ & Hfail & _).
    + apply Permutation_refl.
    + reflexivity.
    + destruct (Hfail (firstn 2 (@eventDefs Sample.libs)) EventTypeDuplicateMessage
                  {| Name := "duplicate_message_event"; DDL := duplicate_message_event_DDL;
                     BatchInsert := Some (@duplicate_message_BatchInsert Sample.libs) |}
                  (skipn 3 (@eventDefs Sample.libs))
                  (errorString "permission denied")) as [E _].
      * reflexivity.
      * cbn. auto.
      * reflexivity.
      * exact E.
  - destruct (@ensureDatabaseSchema_transactional Sample.libs Sample.healthy
                (@eventDefs Sample.libs) (mkConn [] None []))
      as (_ & Hok & _).
    + apply Permutation_refl.
    + reflexivity.
    + apply Hok; [cbn; auto 20 | reflexivity].
Defined.

(** * Part IV: further properties of the mappers and the builders *)

(** ** The PeerScore mapper, event by event *)

Lemma peer_score_step_queued `{L : Libs} (b : Batch) (c : Z) (ev : TraceEvent) :
  fst (peer_score_step (b, c) ev) = (b ++ peer_score_queued ev)%list.
Proof.
  unfold peer_score_queued.
  assert (H0 : b = (b ++ [])%list) by now rewrite List.app_nil_r.
  unfold peer_score_step, guess_encoding.
  destruct (Timestamp ev) as [ts|]; [|exact H0].
  destruct (PeerScore ev) as [sub|]; [|exact H0].
  destruct (IDFromBytes (PeerID ev)) as [peerID [e1|]];
  [ destruct (DecodeString (string_of_list_byte (PeerID ev))) as [decoded1 [e2|]];
    [exact H0|];
    destruct (IDFromBytes decoded1) as [peerID1 [e3|]]; [exact H0|] | ];
  (destruct (IDFromBytes (PeerScore_PeerID sub)) as [otherPeerID [e4|]];
   [ destruct (DecodeString (string_of_list_byte (PeerScore_PeerID sub))) as [decoded2 [e5|]];
     [exact H0|];
     destruct (IDFromBytes decoded2) as [peerID2 [e6|]]; [exact H0|] | ]);
  destruct (peer_score_children _ _) as [values childRowCount]; reflexivity.
Qed.

Lemma peer_score_fold_queued `{L : Libs} (evs : list TraceEvent) (b : Batch) (c : Z) :
  fst (fold_left peer_score_step evs (b, c)) = (b ++ flat_map peer_score_queued evs)%list.
Proof.
  revert b c. induction evs as [|ev evs IH]; intros b c.
  - simpl. now rewrite List.app_nil_r.
  - cbn [fold_left flat_map].
    pose proof (peer_score_step_queued b c ev) as H.
    destruct (peer_score_step (b, c) ev) as [b' c']. cbn [fst] in H. subst b'.
    now rewrite IH, <- app_assoc.
Qed.

Lemma peer_score_BatchInsert_queued `{L : Libs} (evs : list TraceEvent) :
  peer_score_BatchInsert evs = (flat_map peer_score_queued evs, None).
Proof.
  unfold peer_score_BatchInsert. cbv zeta.
  pose proof (peer_score_fold_queued evs [] 0) as H.
  destruct (fold_left peer_score_step evs _) as [b c].
  cbn [fst app] in H. now subst b.
Qed.

Lemma peer_score_queued_ineligible `{L : Libs} (ev : TraceEvent) :
  eligible EventTypePeerScore ev = false -> peer_score_queued ev = [].
Proof.
  unfold peer_score_queued, eligible, on_payload, decodes_with_fallback,
    decodes_after_base64, decodes.
  unfold peer_score_step, guess_encoding.
  destruct (Timestamp ev) as [ts|]; [|reflexivity].
  destruct (PeerScore ev) as [sub|]; [|reflexivity].
  destruct (IDFromBytes (PeerID ev)) as [peerID [e1|]];
  [ destruct (DecodeString (string_of_list_byte (PeerID ev))) as [decoded1 [e2|]];
    [reflexivity|];
    destruct (IDFromBytes decoded1) as [peerID1 [e3|]]; [reflexivity|] | ];
  (destruct (IDFromBytes (PeerScore_PeerID sub)) as [otherPeerID [e4|]];
   [ destruct (DecodeString (string_of_list_byte (PeerScore_PeerID sub))) as [decoded2 [e5|]];
     [reflexivity|];
     destruct (IDFromBytes decoded2) as [peerID2 [e6|]]; [reflexivity|] | ]);
  cbn [snd orb andb]; discriminate.
Qed.

Lemma peer_score_queued_eligible `{L : Libs} (ev : TraceEvent) :
  eligible EventTypePeerScore ev = true -> List.length (peer_score_queued ev) = 1%nat.
Proof.
  intros H. destruct (peer_score_step_eligible [] 0 ev H) as (q & E & _).
  assert (E' : peer_score_queued ev = [q]) by exact E.
  now rewrite E'.
Qed.

(** X1.  An event that fails any test of a mapper (no timestamp, the
    mapper's payload unset, an identifier that does not decode) leaves no
    trace in that mapper's result, for every entry of the registry and
    wherever the event stands in the input. *)
Theorem ineligible_event_contributes_nothing `{L : Libs} (et : EventType) (def : EventDef)
    (f : BatchInsertFunc) (before after : list TraceEvent) (ev : TraceEvent) :
  In (et, def) eventDefs -> BatchInsert def = Some f -> eligible et ev = false ->
  f (before ++ ev :: after)%list = f (before ++ after)%list.
Proof.
  intros Hin Hf Hel.
  destruct (EventType_eq_dec et EventTypePeerScore) as [->|Hne].
  - registry_cases Hin Hf.
    rewrite !peer_score_BatchInsert_queued, !flat_map_app. cbn [flat_map].
    now rewrite (peer_score_queued_ineligible ev Hel).
  - destruct (eventDefs_flat et def f Hin Hne Hf) as (cols & body & Hk & ->).
    unfold flat_BatchInsert. rewrite flat_loop_skip; [reflexivity|].
    rewrite (flat_kinds_eligible et (Name def) cols body ev Hk) in Hel.
    now destruct (body ev).
Qed.

Lemma ineligible_event_contributes_nothing_witness :
  @join_BatchInsert Sample.libs
    [Sample.join_event Sample.id_bytes (Some Sample.ts); Sample.publish_event]
  = @join_BatchInsert Sample.libs [Sample.join_event Sample.id_bytes (Some Sample.ts)].
Proof.
  apply (@ineligible_event_contributes_nothing Sample.libs EventTypeJoin
           {| Name := "join_event"; DDL := join_event_DDL;
              BatchInsert := Some (@join_BatchInsert Sample.libs) |}
           (@join_BatchInsert Sample.libs)
           [Sample.join_event Sample.id_bytes (Some Sample.ts)] [] Sample.publish_event).
  - cbn [In eventDefs]. do 6 right. left. reflexivity.
  - reflexivity.
  - reflexivity.
Defined.

(** X2.  The PeerScore mapper works event by event: the batch for a
    concatenation is the concatenation of the batches, it holds one statement
    per kept event (none for an empty input), and the error is always nil. *)
Theorem peer_score_batch_per_event `{L : Libs} (evs more : list TraceEvent) :
  fst (peer_score_BatchInsert (evs ++ more)%list)
  = (fst (peer_score_BatchInsert evs) ++ fst (peer_score_BatchInsert more))%list
  /\ List.length (fst (peer_score_BatchInsert evs))
     = List.length (filter (eligible EventTypePeerScore) evs)
  /\ peer_score_BatchInsert [] = ([], None)
  /\ snd (peer_score_BatchInsert evs) = None.
Proof.
  rewrite !peer_score_BatchInsert_queued. cbn [fst snd].
  split; [apply flat_map_app|]. split; [|split; reflexivity].
  induction evs as [|ev evs IH]; [reflexivity|].
  cbn [flat_map filter]. rewrite length_app, IH.
  destruct (eligible EventTypePeerScore ev) eqn:E.
  - now rewrite (peer_score_queued_eligible ev E).
  - now rewrite (peer_score_queued_ineligible ev E).
Qed.

Lemma flat_fold_values `{L : Libs} (body : TraceEvent -> option (list value))
    (evs : list TraceEvent) (values : list value) (c : Z) :
  fst (fold_left (flat_step body) evs (values, c))
  = (values ++ List.concat (kept_rows body evs))%list.
Proof.
  revert values c. induction evs as [|ev evs IH]; intros values c.
  - simpl. now rewrite List.app_nil_r.
  - cbn [fold_left flat_step kept_rows]. destruct (body ev) as [row|].
    + rewrite IH. cbn [List.concat]. now rewrite app_assoc.
    + apply IH.
Qed.

Lemma kept_rows_app `{L : Libs} (body : TraceEvent -> option (list value))
    (evs more : list TraceEvent) :
  kept_rows body (evs ++ more)%list = (kept_rows body evs ++ kept_rows body more)%list.
Proof.
  induction evs as [|ev evs IH]; [reflexivity|].
  cbn [app kept_rows]. destruct (body ev); now rewrite IH.
Qed.

(** X3.  A flat mapper hands over the values in input order: it always
    queues exactly one statement, and the values queued for a concatenation
    of two inputs are the values for the first followed by the values for the
    second. *)
Theorem flat_values_in_input_order `{L : Libs} (et : EventType) (def : EventDef)
    (f : BatchInsertFunc) (evs more : list TraceEvent) :
  In (et, def) eventDefs -> et <> EventTypePeerScore -> BatchInsert def = Some f ->
  exists q1 q2 q,
    f evs = ([q1], None) /\ f more = ([q2], None) /\ f (evs ++ more)%list = ([q], None)
    /\ Arguments q = (Arguments q1 ++ Arguments q2)%list.
Proof.
  intros Hin Hne Hf.
  destruct (eventDefs_flat et def f Hin Hne Hf) as (cols & body & Hk & ->).
  unfold flat_BatchInsert, flat_loop.
  pose proof (flat_fold_values body evs [] 0) as E1.
  pose proof (flat_fold_values body more [] 0) as E2.
  pose proof (flat_fold_values body (evs ++ more)%list [] 0) as E3.
  destruct (fold_left (flat_step body) evs _) as [v1 c1].
  destruct (fold_left (flat_step body) more _) as [v2 c2].
  destruct (fold_left (flat_step body) (evs ++ more)%list _) as [v3 c3].
  cbn [fst app] in E1, E2, E3. subst v1 v2 v3.
  do 3 eexists. repeat split. cbn [Arguments Queue app].
  now rewrite kept_rows_app, concat_app.
Qed.

Lemma flat_values_in_input_order_witness :
  exists q1 q2 q,
    @join_BatchInsert Sample.libs [Sample.join_event Sample.id_bytes (Some Sample.ts)]
    = ([q1], None)
    /\ @join_BatchInsert Sample.libs [Sample.join_event Sample.id_bytes (Some 5%Z)]
       = ([q2], None)
    /\ @join_BatchInsert Sample.libs
         [Sample.join_event Sample.id_bytes (Some Sample.ts);
          Sample.join_event Sample.id_bytes (Some 5%Z)]
       = ([q], None)
    /\ Arguments q = (Arguments q1 ++ Arguments q2)%list.
Proof.
  apply (@flat_values_in_input_order Sample.libs EventTypeJoin
           {| Name := "join_event"; DDL := join_event_DDL;
              BatchInsert := Some (@join_BatchInsert Sample.libs) |}
           (@join_BatchInsert Sample.libs)
           [Sample.join_event Sample.id_bytes (Some Sample.ts)]
           [Sample.join_event Sample.id_bytes (Some 5%Z)]).
  - cbn [In eventDefs]. do 6 right. left. reflexivity.
  - discriminate.
  - reflexivity.
Defined.

Lemma peer_score_children_closed (topics : list TopicScore) (values : list value) (c : nat) :
  (Z.of_nat (c + List.length topics) <= GoInt.max_int)%Z ->
  fold_left peer_score_child topics (values, Z.of_nat c)
  = ((values ++ flat_map topic_values topics)%list, Z.of_nat (c + List.length topics)).
Proof.
  revert values c. induction topics as [|t topics IH]; intros values c Hmax.
  - simpl. now rewrite List.app_nil_r, Nat.add_0_r.
  - cbn [fold_left peer_score_child List.length flat_map] in *.
    rewrite incr_small by lia.
    replace (Z.of_nat c + 1)%Z with (Z.of_nat (S c)) by lia.
    rewrite IH by lia. unfold topic_values at 2.
    rewrite <- app_assoc. f_equal. f_equal. lia.
Qed.

Lemma topic_values_length (topics : list TopicScore) :
  List.length (flat_map topic_values topics) = (List.length topics * 5)%nat.
Proof. induction topics as [|t topics IH]; [reflexivity|]. cbn [flat_map List.length app]. rewrite length_app, IH. simpl. lia. Qed.

Lemma peer_score_sql_params (n : nat) :
  (Z.of_nat (6 + n * 5) <= GoInt.max_int)%Z ->
  sql_params (buildBulkInsertParentChild "peer_score_event" peer_score_parentCols
                "peer_score_topic" peer_score_childCols (Z.of_nat n))
  = map Z.of_nat (seq 1 (6 + n * 5)).
Proof.
  intros Hmax. destruct n as [|n]; [reflexivity|].
  rewrite buildBulkInsertParentChild_closed by (discriminate || exact Hmax).
  rewrite sql_params_parent_child by reflexivity.
  apply numbers_after_0.
Qed.

(** The statement queued for a kept PeerScore event: built for as many
    child rows as the event has topic scores, with six parent values followed
    by five values per topic score, in order. *)
Lemma peer_score_queued_shape `{L : Libs} (ev : TraceEvent) :
  eligible EventTypePeerScore ev = true ->
  (Z.of_nat (topic_count ev) <= GoInt.max_int)%Z ->
  exists parent sub,
    PeerScore ev = Some sub /\ List.length parent = 6%nat
    /\ peer_score_queued ev
       = [ {| SQL := buildBulkInsertParentChild "peer_score_event" peer_score_parentCols
                       "peer_score_topic" peer_score_childCols
                       (Z.of_nat (List.length (PeerScore_Topics sub)));
              Arguments := (parent ++ flat_map topic_values (PeerScore_Topics sub))%list |} ].
Proof.
  unfold topic_count, peer_score_queued, eligible, on_payload, decodes_with_fallback,
    decodes_after_base64, decodes.
  unfold peer_score_step, guess_encoding, peer_score_children.
  destruct (Timestamp ev) as [ts|]; [|discriminate].
  destruct (PeerScore ev) as [sub|]; [|discriminate].
  intros Hel Hmax.
  pose proof (fun values => peer_score_children_closed (PeerScore_Topics sub) values 0 Hmax) as Hc.
  cbn [Nat.add Z.of_nat] in Hc.
  destruct (IDFromBytes (PeerID ev)) as [peerID [e1|]];
  [ destruct (DecodeString (string_of_list_byte (PeerID ev))) as [decoded1 [e2|]];
    [discriminate|];
    destruct (IDFromBytes decoded1) as [peerID1 [e3|]]; [discriminate|] | ];
  (destruct (IDFromBytes (PeerScore_PeerID sub)) as [otherPeerID [e4|]];
   [ destruct (DecodeString (string_of_list_byte (PeerScore_PeerID sub))) as [decoded2 [e5|]];
     [cbn [snd orb andb] in Hel; try rewrite andb_false_r in Hel; discriminate|];
     destruct (IDFromBytes decoded2) as [peerID2 [e6|]];
     [cbn [snd orb andb] in Hel; try rewrite andb_false_r in Hel; discriminate|] | ]);
  rewrite Hc; eexists; exists sub; (split; [reflexivity|]); (split; [|reflexivity]);
  reflexivity.
Qed.

Lemma flat_kinds_dollar_free `{L : Libs} (et : EventType) (table : string) (cols : list string)
    (body : TraceEvent -> option (list value)) :
  In (et, (table, cols, body)) flat_kinds -> dollar_free (insert_header table cols) = true.
Proof. intros Hin. in_cases Hin; reflexivity. Qed.

(** X4.  Statements and values stay aligned for every mapper of the
    registry: in every statement a [BatchInsert] function queues, the
    positional parameters of the SQL text are exactly [$1], ..., [$n] in
    order, where [n] is the number of values queued with it.  (The input and
    the topic lists are short enough for their values to be counted by an
    [int].) *)
Theorem queued_values_match_parameters `{L : Libs} (et : EventType) (def : EventDef)
    (f : BatchInsertFunc) (evs : list TraceEvent) :
  In (et, def) eventDefs -> BatchInsert def = Some f ->
  (6 * Z.of_nat (List.length evs) <= GoInt.max_int)%Z ->
  (forall ev, In ev evs -> (6 + 5 * Z.of_nat (topic_count ev) <= GoInt.max_int)%Z) ->
  Forall (fun q => sql_params (SQL q) = map Z.of_nat (seq 1 (List.length (Arguments q))))
         (fst (f evs)).
Proof.
  intros Hin Hf Hmax Htopics.
  destruct (EventType_eq_dec et EventTypePeerScore) as [->|Hne].
  - registry_cases Hin Hf.
    rewrite peer_score_BatchInsert_queued. cbn [fst].
    apply Forall_flat_map, Forall_forall. intros ev Hev.
    destruct (eligible EventTypePeerScore ev) eqn:E;
      [|rewrite (peer_score_queued_ineligible ev E); constructor].
    specialize (Htopics ev Hev).
    destruct (peer_score_queued_shape ev E ltac:(lia)) as (parent & sub & Hsub & Hp & ->).
    unfold topic_count in Htopics. rewrite Hsub in Htopics.
    constructor; [|constructor]. cbn [SQL Arguments].
    rewrite length_app, Hp, topic_values_length.
    apply peer_score_sql_params. lia.
  - destruct (eventDefs_flat et def f Hin Hne Hf) as (cols & body & Hk & ->).
    destruct (flat_kind_statement et (Name def) cols body evs Hk Hmax) as (E1 & E2 & E3).
    rewrite E1. cbn [fst]. constructor; [|constructor]. cbn [SQL Arguments].
    rewrite E2, E3, sql_params_dollar_free by exact (flat_kinds_dollar_free et _ _ _ Hk).
    rewrite <- (string_app_nil_r (strings.Join _ ",")), sql_params_flat_tuples.
    cbn [sql_params]. now rewrite List.app_nil_r, numbers_after_0.
Qed.

Lemma queued_values_match_parameters_witness :
  Forall (fun q => sql_params (SQL q) = map Z.of_nat (seq 1 (List.length (Arguments q))))
         (fst (@peer_score_BatchInsert Sample.libs
                 [Sample.peer_score_event Sample.id_bytes Sample.other_bytes
                    [Sample.topic_score; Sample.topic_score];
                  Sample.peer_score_event Sample.id_bytes Sample.other_bytes []])).
Proof.
  apply (@queued_values_match_parameters Sample.libs EventTypePeerScore
           {| Name := "peer_score_event"; DDL := peer_score_event_DDL;
              BatchInsert := Some (@peer_score_BatchInsert Sample.libs) |}
           (@peer_score_BatchInsert Sample.libs)).
  - cbn [In eventDefs]. do 10 right. left. reflexivity.
  - reflexivity.
  - unfold GoInt.max_int. simpl. lia.
  - intros ev [<-|[<-|[]]]; unfold GoInt.max_int; simpl; lia.
Defined.

(** X5.  In every flat table the first two columns are [peer_id] and
    [timestamp], and the row of a kept event starts with the string of the
    envelope's peer identifier and the time [time.Unix(0, ts)]; every
    further value is a string, one per remaining column. *)
Theorem flat_row_starts_with_peer_and_time `{L : Libs} (et : EventType) (def : EventDef)
    (f : BatchInsertFunc) (ev : TraceEvent) (ts : Z) (peerID : peer_ID) :
  In (et, def) eventDefs -> et <> EventTypePeerScore -> BatchInsert def = Some f ->
  Timestamp ev = Some ts -> IDFromBytes (PeerID ev) = (peerID, None) ->
  eligible et ev = true ->
  exists cols rest,
    f [ev]
    = ([{| SQL := buildBulkInsert (Name def) ("peer_id" :: "timestamp" :: cols) 1;
           Arguments := VString (IDString peerID) :: VTime (time_Unix 0 ts) :: rest |}], None)
    /\ List.length rest = List.length cols
    /\ Forall (fun v => exists s, v = VString s) rest.
Proof.
  intros Hin Hne Hf Hts Hid Hel.
  destruct (eventDefs_flat et def f Hin Hne Hf) as (cols & body & Hk & ->).
  rewrite (flat_kinds_eligible et (Name def) cols body ev Hk) in Hel.
  unfold flat_BatchInsert, flat_loop. cbn [fold_left flat_step].
  destruct def as [name ddl bi]. cbn [Name] in *. clear Hin Hf.
  in_cases Hk;
    unfold publish_message_body, reject_message_body, duplicate_message_body,
      deliver_message_body, add_peer_body, remove_peer_body, join_body, leave_body,
      graft_body, prune_body in *;
    rewrite Hts, Hid in *;
    repeat match goal with
           | H : context [match ?p ev with _ => _ end] |- _ =>
               destruct (p ev); [|discriminate H]
           | H : context [IDFromBytes ?x] |- _ =>
               let e := fresh "e" in destruct (IDFromBytes x) as [? [e|]]; [discriminate H|]
           end;
    do 2 eexists; (split; [reflexivity|]); (split; [reflexivity|]);
    repeat constructor; eauto.
Qed.

Lemma flat_row_starts_with_peer_and_time_witness :
  exists cols rest,
    @join_BatchInsert Sample.libs [Sample.join_event Sample.id_bytes (Some Sample.ts)]
    = ([{| SQL := buildBulkInsert "join_event" ("peer_id" :: "timestamp" :: cols) 1;
           Arguments := VString (@IDString Sample.libs (string_of_list_byte Sample.id_bytes))
                        :: VTime (time_Unix 0 Sample.ts) :: rest |}], None)
    /\ List.length rest = List.length cols
    /\ Forall (fun v => exists s, v = VString s) rest.
Proof.
  apply (@flat_row_starts_with_peer_and_time Sample.libs EventTypeJoin
           {| Name := "join_event"; DDL := join_event_DDL;
              BatchInsert := Some (@join_BatchInsert Sample.libs) |}
           (@join_BatchInsert Sample.libs)
           (Sample.join_event Sample.id_bytes (Some Sample.ts)) Sample.ts
           (string_of_list_byte Sample.id_bytes)).
  - cbn [In eventDefs]. do 6 right. left. reflexivity.
  - discriminate.
  - reflexivity.
  - reflexivity.
  - reflexivity.
  - reflexivity.
Defined.

Lemma peer_score_children_fst (topics : list TopicScore) (values : list value) (c : Z) :
  fst (fold_left peer_score_child topics (values, c))
  = (values ++ flat_map topic_values topics)%list.
Proof.
  revert values c. induction topics as [|t topics IH]; intros values c.
  - simpl. now rewrite List.app_nil_r.
  - cbn [fold_left peer_score_child flat_map]. rewrite IH.
    unfold topic_values at 2. now rewrite <- app_assoc.
Qed.

(** X6.  Where the PeerScore mapper is right.  When the payload's own
    identifier decodes directly, and the envelope PeerID decodes directly or
    after the base64 fallback to [peerID], the one statement queued for the
    event carries, in order: the string of [peerID], the time, the string of
    the payload's identifier, the three scores, and then for every topic
    score of the payload, in order, its topic, time in mesh and three
    delivery counters. *)
Theorem peer_score_row_with_direct_other `{L : Libs} (ev : TraceEvent) (ts : Z)
    (sub : TraceEventPeerScore) (peerID otherPeerID : peer_ID) :
  Timestamp ev = Some ts -> PeerScore ev = Some sub ->
  IDFromBytes (PeerScore_PeerID sub) = (otherPeerID, None) ->
  (IDFromBytes (PeerID ev) = (peerID, None)
   \/ (snd (IDFromBytes (PeerID ev)) <> None /\ guess_encoding (PeerID ev) = Some peerID)) ->
  exists sql,
    peer_score_BatchInsert [ev]
    = ([{| SQL := sql;
           Arguments :=
             ([ VString (IDString peerID);
                VTime (time_Unix 0 ts);
                VString (IDString otherPeerID);
                VFloat64 (PeerScore_AppSpecificScore sub);
                VFloat64 (PeerScore_IPColocationFactor sub);
                VFloat64 (PeerScore_BehaviourPenalty sub) ]
              ++ flat_map topic_values (PeerScore_Topics sub))%list |}], None).
Proof.
  intros Hts Hsub Hother Hpeer.
  unfold peer_score_BatchInsert. cbn [fold_left]. unfold peer_score_step.
  rewrite Hts, Hsub, Hother.
  assert (E : (let '(p, err) := IDFromBytes (PeerID ev) in
               match err with
               | None => Some p
               | Some _ => guess_encoding (PeerID ev)
               end) = Some peerID).
  { destruct Hpeer as [H|[H1 H2]].
    - now rewrite H.
    - destruct (IDFromBytes (PeerID ev)) as [p [e|]]; [exact H2 | now contradiction H1]. }
  destruct (IDFromBytes (PeerID ev)) as [p err]. rewrite E.
  unfold peer_score_children.
  match goal with
  | |- context [fold_left peer_score_child ?t (?v, ?z)] =>
      pose proof (peer_score_children_fst t v z) as Ec;
      destruct (fold_left peer_score_child t (v, z)) as [values childRowCount]
  end.
  cbn [fst] in Ec. subst values. eexists. reflexivity.
Qed.

Lemma peer_score_row_with_direct_other_witness :
  exists sql,
    @peer_score_BatchInsert Sample.libs
      [Sample.peer_score_event Sample.id_base64 Sample.other_bytes [Sample.topic_score]]
    = ([{| SQL := sql;
           Arguments :=
             ([ VString "1u3A"; VTime (time_Unix 0 Sample.ts); VString "15TJUr";
                VFloat64 4607182418800017408%Z; VFloat64 0%Z; VFloat64 0%Z ]
              ++ flat_map topic_values [Sample.topic_score])%list |}], None).
Proof.
  apply (@peer_score_row_with_direct_other Sample.libs
           (Sample.peer_score_event Sample.id_base64 Sample.other_bytes [Sample.topic_score])
           Sample.ts
           {| PeerScore_PeerID := Sample.other_bytes;
              PeerScore_AppSpecificScore := 4607182418800017408%Z;
              PeerScore_IPColocationFactor := 0%Z;
              PeerScore_BehaviourPenalty := 0%Z;
              PeerScore_Topics := [Sample.topic_score] |}
           (string_of_list_byte Sample.id_bytes) (string_of_list_byte Sample.other_bytes)).
  - reflexivity.
  - reflexivity.
  - reflexivity.
  - right. split; [vm_compute; discriminate | vm_compute; reflexivity].
Defined.

(** ** The builders, row by row *)

(** X7.  [buildBulkInsert] grows by one tuple per row: the statement for
    [n + 1] rows is the statement for [n] rows, a comma unless it is the first
    row, and the tuple [($(n*K+1), ..., $(n*K+K))].  For a [rowCount] that is
    zero or negative it is the header alone. *)
Theorem buildBulkInsert_row_by_row (table : string) (columns : list string) (n : Z) :
  (0 <= n)%Z -> ((n + 1) * Z.of_nat (List.length columns) <= GoInt.max_int)%Z ->
  buildBulkInsert table columns (n + 1)
  = buildBulkInsert table columns n
      ++ (if (n =? 0)%Z then "" else ",")
      ++ "(" ++ strings.Join (placeholders_after (n * Z.of_nat (List.length columns))
                                                 (List.length columns)) ", " ++ ")"
  /\ (forall rowCount, (rowCount <= 0)%Z ->
        buildBulkInsert table columns rowCount
        = "INSERT INTO " ++ table ++ "(" ++ strings.Join columns ", " ++ ") VALUES ").
Proof.
  intros Hn Hmax. split.
  - assert (Hbound : (Z.of_nat (S (Z.to_nat n) * List.length columns) <= GoInt.max_int)%Z).
    { rewrite Nat2Z.inj_mul, Nat2Z.inj_succ, Z2Nat.id by lia. lia. }
    assert (Hle : (Z.to_nat n * List.length columns
                   <= S (Z.to_nat n) * List.length columns)%nat) by (simpl; lia).
    replace (n + 1)%Z with (Z.of_nat (S (Z.to_nat n))) by lia.
    rewrite <- (Z2Nat.id n) at 2 by lia.
    rewrite !buildBulkInsert_closed by lia.
    rewrite flat_tuples_S, Join_snoc, flat_tuples_length.
    unfold flat_tuple. rewrite Nat2Z.inj_mul, Z2Nat.id by lia.
    destruct (Z.to_nat n) as [|m] eqn:E.
    + assert (n = 0%Z) by lia. subst n. cbn. now string_normal.
    + assert ((n =? 0)%Z = false) by (apply Z.eqb_neq; lia).
      rewrite H. cbn [Nat.ltb Nat.leb]. now string_normal.
  - intros rowCount Hr. unfold buildBulkInsert, flat_rows, strings.WriteString.
    replace (Z.to_nat rowCount) with 0%nat by lia. reflexivity.
Qed.

Lemma buildBulkInsert_row_by_row_witness :
  buildBulkInsert "leave_event" leave_cols (2 + 1)
  = buildBulkInsert "leave_event" leave_cols 2
      ++ (if (2 =? 0)%Z then "" else ",")
      ++ "(" ++ strings.Join (placeholders_after (2 * Z.of_nat (List.length leave_cols))
                                                 (List.length leave_cols)) ", " ++ ")"
  /\ (forall rowCount, (rowCount <= 0)%Z ->
        buildBulkInsert "leave_event" leave_cols rowCount
        = "INSERT INTO " ++ "leave_event" ++ "(" ++ strings.Join leave_cols ", " ++ ") VALUES ").
Proof.
  apply (buildBulkInsert_row_by_row "leave_event" leave_cols 2).
  - lia.
  - unfold GoInt.max_int. simpl. lia.
Defined.

Lemma parent_cte_flat (pt : string) (pcols : list string) :
  (Z.of_nat (List.length pcols) <= GoInt.max_int)%Z ->
  parent_cte pt pcols
  = "WITH new_" ++ pt ++ " AS (" ++ buildBulkInsert pt pcols 1 ++ " RETURNING id) ".
Proof.
  intros Hmax. change 1%Z with (Z.of_nat 1).
  rewrite buildBulkInsert_closed by (rewrite Nat.mul_1_l; exact Hmax).
  unfold parent_cte, flat_tuples. cbn [seq map strings.Join]. now string_normal.
Qed.

Lemma buildBulkInsertParentChild_negative (pt : string) (pcols : list string)
    (ct : string) (ccols : list string) (n : Z) :
  (n < 0)%Z -> (Z.of_nat (List.length pcols) <= GoInt.max_int)%Z ->
  buildBulkInsertParentChild pt pcols ct ccols n
  = parent_cte pt pcols ++ insert_header ct ccols.
Proof.
  intros Hn HP. unfold buildBulkInsertParentChild.
  destruct (n =? 0)%Z eqn:E; [apply Z.eqb_eq in E; lia|].
  unfold child_rows, strings.WriteString.
  rewrite flat_columns_closed by lia.
  replace (Z.to_nat n) with 0%nat by lia.
  unfold parent_cte, flat_tuple, insert_header. cbn [fold_left seq Nat.mul Z.of_nat].
  now string_normal.
Qed.

(** X8.  The two branches of [buildBulkInsertParentChild] insert the parent
    row with the same text: for [childRowCount <> 0] the statement wraps the
    very string [buildBulkInsert] returns for the parent table and one row
    into [WITH new_<parent> AS (... RETURNING id)] and appends the child
    insert.  For a negative [childRowCount] that child insert is the
    [buildBulkInsert] header for the child table with no tuple at all. *)
Theorem buildBulkInsertParentChild_wraps_parent_insert (parentTable : string)
    (parentColumns : list string) (childTable : string) (childColumns : list string)
    (childRowCount : Z) :
  childRowCount <> 0%Z ->
  (Z.of_nat (List.length parentColumns
             + Z.to_nat childRowCount * (List.length childColumns - 1)) <= GoInt.max_int)%Z ->
  exists child,
    buildBulkInsertParentChild parentTable parentColumns childTable childColumns childRowCount
    = "WITH new_" ++ parentTable ++ " AS ("
        ++ buildBulkInsert parentTable parentColumns 1 ++ " RETURNING id) " ++ child
    /\ ((childRowCount < 0)%Z -> child = buildBulkInsert childTable childColumns 0)
    /\ ((0 < childRowCount)%Z ->
        child = insert_header childTable childColumns
                  ++ strings.Join (child_tuples parentTable (List.length parentColumns)
                                     (List.length childColumns) (Z.to_nat childRowCount)) ",").
Proof.
  intros Hn Hmax.
  assert (HP : (Z.of_nat (List.length parentColumns) <= GoInt.max_int)%Z)
    by (eapply Z.le_trans; [apply Nat2Z.inj_le, Nat.le_add_r | exact Hmax]).
  exists (insert_header childTable childColumns
            ++ strings.Join (child_tuples parentTable (List.length parentColumns)
                               (List.length childColumns) (Z.to_nat childRowCount)) ",").
  split; [|split].
  - destruct (Z.lt_ge_cases 0 childRowCount) as [Hpos|Hneg].
    + rewrite <- (Z2Nat.id childRowCount) at 1 by lia.
      rewrite buildBulkInsertParentChild_closed by (lia || exact Hmax).
      rewrite parent_cte_flat by exact HP. now string_normal.
    + rewrite buildBulkInsertParentChild_negative by (lia || exact HP).
      replace (Z.to_nat childRowCount) with 0%nat by lia.
      rewrite parent_cte_flat by exact HP.
      unfold child_tuples. cbn [seq map strings.Join]. now string_normal.
  - intros Hneg. replace (Z.to_nat childRowCount) with 0%nat by lia.
    unfold child_tuples. cbn [seq map strings.Join]. now string_normal.
  - intros _. reflexivity.
Qed.

Lemma buildBulkInsertParentChild_wraps_parent_insert_witness :
  exists child,
    buildBulkInsertParentChild "peer_score_event" peer_score_parentCols
                               "peer_score_topic" peer_score_childCols (-1)
    = "WITH new_" ++ "peer_score_event" ++ " AS ("
        ++ buildBulkInsert "peer_score_event" peer_score_parentCols 1
        ++ " RETURNING id) " ++ child
    /\ child = buildBulkInsert "peer_score_topic" peer_score_childCols 0.
Proof.
  destruct (buildBulkInsertParentChild_wraps_parent_insert "peer_score_event"
              peer_score_parentCols "peer_score_topic" peer_score_childCols (-1))
    as (child & E & Hneg & _).
  - discriminate.
  - unfold GoInt.max_int. simpl. lia.
  - exists child. split; [exact E | apply Hneg; lia].
Defined.

(** ** The schema ensurer on any registry and any server *)

Lemma exec_ddl_loop_filter `{L : Libs} (srv : Server) (entries : list (EventType * EventDef))
    (conn : Conn) :
  exec_ddl_loop srv entries conn = exec_ddl_loop srv (filter has_ddl entries) conn.
Proof.
  revert conn. induction entries as [|[et def] entries IH]; intros conn; [reflexivity|].
  cbn [exec_ddl_loop filter]. unfold has_ddl at 1. cbn [snd].
  destruct (DDL def =? "")%string eqn:E; cbn [negb andb]; [apply IH|].
  destruct (BatchInsert def) as [f|] eqn:Ef; [|apply IH].
  cbn [exec_ddl_loop]. rewrite E, Ef.
  destruct (tx_Exec srv (DDL def) conn) as [conn' [err|]]; [reflexivity | apply IH].
Qed.

Lemma forallb_filter_same {A : Type} (p : A -> bool) (l : list A) :
  forallb p (filter p l) = true.
Proof.
  apply forallb_forall. intros x Hx. now apply filter_In in Hx.
Qed.

(** The three ways [ensureDatabaseSchema] ends once [Begin] has succeeded. *)
Lemma ensureDatabaseSchema_outcome `{L : Libs} (srv : Server)
    (entries : list (EventType * EventDef)) (conn : Conn) :
  begin_error srv = None ->
  (exists ce,
     commit_error srv (map ddl_of (filter has_ddl entries)) = ce
     /\ ensureDatabaseSchema srv entries conn
        = (mkConn (match ce with
                   | None => (durable conn ++ map ddl_of (filter has_ddl entries))%list
                   | Some _ => durable conn
                   end) None
                  (calls conn ++ [CallBegin]
                     ++ map CallExec (map ddl_of (filter has_ddl entries))
                     ++ [CallCommit; CallRollback])%list,
           match ce with
           | None => None
           | Some e => Some (Errorf_w "commit transaction" e)
           end))
  \/ (exists pre et def post e,
        filter has_ddl entries = (pre ++ (et, def) :: post)%list
        /\ ensureDatabaseSchema srv entries conn
           = (mkConn (durable conn) None
                     (calls conn ++ [CallBegin] ++ map CallExec (map ddl_of pre ++ [DDL def])
                        ++ [CallRollback])%list,
              Some (Errorf_w ("exec ddl for " ++ Key et) e))).
Proof.
  intros Hbegin.
  pose proof (forallb_filter_same has_ddl entries) as Hddl.
  unfold ensureDatabaseSchema, conn_Begin. rewrite Hbegin.
  unfold ensure_after_begin. rewrite exec_ddl_loop_filter.
  destruct (execs_cases srv (filter has_ddl entries) [])
    as [Hok | (pre & et & def & post & e & E & Hok & Hfail)].
  - left. exists (commit_error srv (map ddl_of (filter has_ddl entries))).
    split; [reflexivity|].
    rewrite exec_ddl_loop_ok by assumption.
    unfold tx_Commit. cbn [open_tx calls durable app].
    destruct (commit_error srv (map ddl_of (filter has_ddl entries)));
      unfold tx_Rollback; cbn [open_tx calls durable]; now rewrite <- !app_assoc.
  - right. exists pre, et, def, post, e. split; [exact E|].
    rewrite E in *. cbn [app] in Hfail.
    rewrite exec_ddl_loop_fail with (e := e) by assumption.
    unfold tx_Rollback. cbn [open_tx calls durable app]. now rewrite <- !app_assoc.
Qed.

(** X9.  Whatever the registry and whatever the server does,
    [ensureDatabaseSchema], called with no transaction open, leaves none
    open; it executes only DDL texts of entries that have a non-empty DDL and
    a [BatchInsert] function; when it returns no error it has executed the
    DDL of every such entry, in order, and made exactly those durable; when
    it returns an error the durable state is as before and the error wraps
    its cause. *)
Theorem ensureDatabaseSchema_any_registry `{L : Libs} (srv : Server)
    (entries : list (EventType * EventDef)) (conn : Conn) :
  open_tx conn = None ->
  exists added,
    calls (fst (ensureDatabaseSchema srv entries conn)) = (calls conn ++ added)%list
    /\ open_tx (fst (ensureDatabaseSchema srv entries conn)) = None
    /\ (forall sql, In (CallExec sql) added ->
          exists et def,
            In (et, def) entries /\ sql = DDL def /\ DDL def <> ""
            /\ BatchInsert def <> None)
    /\ (snd (ensureDatabaseSchema srv entries conn) = None ->
        durable (fst (ensureDatabaseSchema srv entries conn))
        = (durable conn ++ map ddl_of (filter has_ddl entries))%list
        /\ added = ([CallBegin] ++ map CallExec (map ddl_of (filter has_ddl entries))
                      ++ [CallCommit; CallRollback])%list)
    /\ (forall err, snd (ensureDatabaseSchema srv entries conn) = Some err ->
          durable (fst (ensureDatabaseSchema srv entries conn)) = durable conn
          /\ exists cause, Unwrap err = Some cause).
Proof.
  intros Hclosed.
  assert (Hexec : forall stmts sql,
             (forall s, In s stmts -> In s (map ddl_of (filter has_ddl entries))) ->
             In (CallExec sql) (map CallExec stmts) ->
             exists et def,
               In (et, def) entries /\ sql = DDL def /\ DDL def <> "" /\ BatchInsert def <> None).
  { intros stmts sql Hsub Hin.
    apply in_map_iff in Hin as (s & [= ->] & Hs).
    apply Hsub, in_map_iff in Hs as ([et def] & <- & Hin).
    apply filter_In in Hin as [Hin Hd]. apply has_ddl_spec in Hd as [Hne [f Hf]].
    exists et, def. unfold ddl_of. cbn [snd].
    repeat split; [exact Hin | now apply String.eqb_neq | congruence]. }
  destruct (begin_error srv) as [e|] eqn:Hbegin.
  - unfold ensureDatabaseSchema, conn_Begin. rewrite Hbegin. cbn [fst snd calls open_tx durable].
    exists [CallBegin]. split; [reflexivity|]. split; [exact Hclosed|].
    split; [intros sql [H|[]]; discriminate|]. split; [discriminate|].
    intros err [= <-]. split; [reflexivity|]. now exists e.
  - destruct (ensureDatabaseSchema_outcome srv entries conn Hbegin)
      as [(ce & Hce & ->) | (pre & et & def & post & e & E & ->)];
      cbn [fst snd calls open_tx durable].
    + eexists. split; [reflexivity|]. split; [reflexivity|]. split; [|split].
      * intros sql Hin. cbn [app] in Hin. destruct Hin as [Hin|Hin]; [discriminate|].
        apply in_app_or in Hin as [Hin|[Hin|[Hin|[]]]]; try discriminate.
        now apply (Hexec (map ddl_of (filter has_ddl entries))).
      * destruct ce; [discriminate|]. intros _. now split.
      * destruct ce as [e|]; [|discriminate].
        intros err [= <-]. split; [reflexivity|]. now exists e.
    + eexists. split; [reflexivity|]. split; [reflexivity|]. split; [|split].
      * intros sql Hin. cbn [app] in Hin. destruct Hin as [Hin|Hin]; [discriminate|].
        apply in_app_or in Hin as [Hin|[Hin|[]]]; try discriminate.
        apply (Hexec (map ddl_of pre ++ [DDL def])%list); [|exact Hin].
        intros s Hs. rewrite E, map_app. cbn [map].
        apply in_app_or in Hs as [Hs|[<-|[]]]; apply in_or_app; [now left|right; now left].
      * discriminate.
      * intros err [= <-]. split; [reflexivity|]. now exists e.
Qed.

Lemma ensureDatabaseSchema_any_registry_witness :
  exists added,
    calls (fst (@ensureDatabaseSchema Sample.libs Sample.healthy
                  [ (EventTypeJoin,
                     {| Name := "join_event"; DDL := join_event_DDL; BatchInsert := None |});
                    (EventTypeLeave,
                     {| Name := "leave_event"; DDL := leave_event_DDL;
                        BatchInsert := Some (@leave_BatchInsert Sample.libs) |});
                    (EventTypeGraft,
                     {| Name := "graft_event"; DDL := "";
                        BatchInsert := Some (@graft_BatchInsert Sample.libs) |}) ]
                  (mkConn [] None [])))
    = ([] ++ added)%list
    /\ added = [CallBegin; CallExec leave_event_DDL; CallCommit; CallRollback].
Proof.
  destruct (@ensureDatabaseSchema_any_registry Sample.libs Sample.healthy
              [ (EventTypeJoin,
                 {| Name := "join_event"; DDL := join_event_DDL; BatchInsert := None |});
                (EventTypeLeave,
                 {| Name := "leave_event"; DDL := leave_event_DDL;
                    BatchInsert := Some (@leave_BatchInsert Sample.libs) |});
                (EventTypeGraft,
                 {| Name := "graft_event"; DDL := "";
                    BatchInsert := Some (@graft_BatchInsert Sample.libs) |}) ]
              (mkConn [] None []))
    as (added & E & _ & _ & Hok & _).
  - reflexivity.
  - exists added. split; [exact E|]. now apply Hok.
Defined.

(** ** [connect] *)

(** X10.  [connect] returns either a connection or an error, never both and
    never neither.  A connection is returned only after the schema
    transaction has committed: its durable state is the dialled connection's
    plus the DDL of every entry that is not skipped, and no transaction is
    open on it.  An error always wraps its cause, which is the dialler's
    error or the error of [ensureDatabaseSchema]. *)
Theorem connect_connection_or_error `{L : Libs} (dial : string -> Conn * option error)
    (srv : Server) (entries : list (EventType * EventDef))
    (dbHost : string) (dbPort : Z) (dbName dbSSLMode dbUser dbPassword : string) :
  (forall c,
      fst (connect dial srv entries dbHost dbPort dbName dbSSLMode dbUser dbPassword) = Some c ->
      snd (connect dial srv entries dbHost dbPort dbName dbSSLMode dbUser dbPassword) = None
      /\ exists c0,
           dial (dsn dbHost dbPort dbName dbSSLMode dbUser dbPassword) = (c0, None)
           /\ durable c = (durable c0 ++ map ddl_of (filter has_ddl entries))%list
           /\ open_tx c = None)
  /\ (forall err,
        snd (connect dial srv entries dbHost dbPort dbName dbSSLMode dbUser dbPassword)
        = Some err ->
        fst (connect dial srv entries dbHost dbPort dbName dbSSLMode dbUser dbPassword) = None
        /\ exists cause,
             Unwrap err = Some cause
             /\ (snd (dial (dsn dbHost dbPort dbName dbSSLMode dbUser dbPassword)) = Some cause
                 \/ snd (ensureDatabaseSchema srv entries
                           (fst (dial (dsn dbHost dbPort dbName dbSSLMode dbUser dbPassword))))
                    = Some cause))
  /\ (fst (connect dial srv entries dbHost dbPort dbName dbSSLMode dbUser dbPassword) = None ->
      exists err,
        snd (connect dial srv entries dbHost dbPort dbName dbSSLMode dbUser dbPassword)
        = Some err).
Proof.
  unfold connect.
  destruct (dial (dsn dbHost dbPort dbName dbSSLMode dbUser dbPassword)) as [c0 [e|]].
  - cbn [fst snd]. split; [discriminate|]. split; [|eauto].
    intros err [= <-]. split; [reflexivity|]. exists e. split; [reflexivity | now left].
  - cbn [fst snd].
    destruct (ensureDatabaseSchema srv entries c0) as [c [e|]] eqn:E; cbn [fst snd].
    + split; [discriminate|]. split; [|eauto].
      intros err [= <-]. split; [reflexivity|]. exists e. split; [reflexivity | now right].
    + split; [|split; [discriminate | discriminate]].
      intros c' [= <-]. split; [reflexivity|]. exists c0. split; [reflexivity|].
      destruct (begin_error srv) as [eb|] eqn:Hbegin.
      * unfold ensureDatabaseSchema, conn_Begin in E. rewrite Hbegin in E. discriminate.
      * destruct (ensureDatabaseSchema_outcome srv entries c0 Hbegin)
          as [(ce & Hce & E') | (pre & et & def & post & e & _ & E')];
          rewrite E in E'.
        -- destruct ce; [discriminate|]. now inversion E'.
        -- discriminate.
Qed.

(** ** The connection string *)

Lemma split_at_space (a a' r r' : string) :
  space_free a = true -> space_free a' = true ->
  a ++ String " " r = a' ++ String " " r' -> a = a' /\ r = r'.
Proof.
  revert a'. induction a as [|c a IH]; intros [|c' a'] Ha Ha' E; cbn [append] in E.
  - now inversion E.
  - inversion E; subst. cbn [space_free] in Ha'. discriminate.
  - inversion E; subst. cbn [space_free] in Ha. discriminate.
  - inversion E; subst.
    cbn [space_free] in Ha, Ha'. apply andb_prop in Ha as [_ Ha], Ha' as [_ Ha'].
    destruct (IH a' Ha Ha' H1) as [-> ->]. now split.
Qed.

Lemma uint_space_free (d : Decimal.uint) : space_free (NilEmpty.string_of_uint d) = true.
Proof. induction d; simpl; auto. Qed.

Lemma Itoa_space_free (z : Z) : space_free (strconv.Itoa z) = true.
Proof.
  unfold strconv.Itoa, NilZero.string_of_int, NilZero.string_of_uint.
  destruct (Z.to_int z) as [d|d]; destruct d; try reflexivity;
    try apply (uint_space_free (_ _)); cbn [append space_free Ascii.eqb Bool.eqb negb andb];
    apply (uint_space_free (_ _)).
Qed.

Lemma Itoa_injective (a b : Z) : strconv.Itoa a = strconv.Itoa b -> a = b.
Proof.
  unfold strconv.Itoa. intros E. apply DecimalZ.to_int_inj.
  assert (H : forall z, NilZero.int_of_string (NilZero.string_of_int (Z.to_int z))
                        = Some (Z.to_int z)).
  { intros z. apply NilZero.isi; destruct z as [|p|p]; cbn [Z.to_int];
      try discriminate; intros [= Hp]; now apply DecimalPos.Unsigned.to_uint_nonnil in Hp. }
  pose proof (H a) as Ha. rewrite E, H in Ha. now inversion Ha.
Qed.

(** X11.  [connect] copies its settings into the connection string without
    quoting.  As long as host, database name, SSL mode and user contain no
    space, the string determines all six settings; with a space in one of
    them it does not: two different settings give the same string. *)
Theorem dsn_determines_settings (dbHost dbHost' : string) (dbPort dbPort' : Z)
    (dbName dbName' dbSSLMode dbSSLMode' dbUser dbUser' dbPassword dbPassword' : string) :
  space_free dbHost = true -> space_free dbHost' = true ->
  space_free dbName = true -> space_free dbName' = true ->
  space_free dbSSLMode = true -> space_free dbSSLMode' = true ->
  space_free dbUser = true -> space_free dbUser' = true ->
  (dsn dbHost dbPort dbName dbSSLMode dbUser dbPassword
   = dsn dbHost' dbPort' dbName' dbSSLMode' dbUser' dbPassword' ->
   dbHost = dbHost' /\ dbPort = dbPort' /\ dbName = dbName' /\ dbSSLMode = dbSSLMode'
   /\ dbUser = dbUser' /\ dbPassword = dbPassword')
  /\ dsn "db" 5432 "trace sslmode=disable" "require" "u" "p"
     = dsn "db" 5432 "trace" "disable sslmode=require" "u" "p".
Proof.
  intros Hh Hh' Hn Hn' Hs Hs' Hu Hu'. split; [|reflexivity].
  unfold dsn. cbn [append]. intros E.
  injection E as E. apply split_at_space in E as [-> E]; try assumption.
  injection E as E. apply split_at_space in E as [Ep E]; try apply Itoa_space_free.
  apply Itoa_injective in Ep as ->.
  injection E as E. apply split_at_space in E as [-> E]; try assumption.
  injection E as E. apply split_at_space in E as [-> E]; try assumption.
  injection E as E. apply split_at_space in E as [-> E]; try assumption.
  injection E as E. now subst.
Qed.

Lemma dsn_determines_settings_witness :
  (dsn "db.example" 5432 "trace" "require" "catcher" "s3 cr3t"
   = dsn "db.example" 5432 "trace" "require" "catcher" "s3 cr3t" ->
   "db.example" = "db.example" /\ 5432%Z = 5432%Z /\ "trace" = "trace"
   /\ "require" = "require" /\ "catcher" = "catcher" /\ "s3 cr3t" = "s3 cr3t")
  /\ dsn "db" 5432 "trace sslmode=disable" "require" "u" "p"
     = dsn "db" 5432 "trace" "disable sslmode=require" "u" "p".
Proof.
  apply (dsn_determines_settings "db.example" "db.example" 5432 5432 "trace" "trace"
           "require" "require" "catcher" "catcher" "s3 cr3t" "s3 cr3t");
    reflexivity.
Defined.

(** ** The registry: statements against the tables of the DDL *)




